(** * post.py: displacement post-processing for CalculiX OUTPUT=3D results

    A shallow embedding of [post.py] and the properties of its four stages
    ([read_displacements], [read_expansion], [new_displacements], [splice])
    and of its entry point [main].

    Python values are modelled as follows.
    - [int] is [Z].
    - [str] is a list of Unicode code points ([list N]).
    - [float] is [spec_float] (sign, mantissa, binary exponent).
    - tuples and lists are [list]; a [dict] with integer keys is a [gmap Z].
    - a raised exception is the [Raise] branch of [result]. *)

From Stdlib Require Import ZArith List Ascii String DecimalString DecimalPos.
From Stdlib Require Import Floats.SpecFloat.
From stdpp Require Import gmap list sorting.

Local Open Scope Z_scope.

(** ** Exceptions and results *)

Abbreviation str := (list N).

Inductive exn :=
| FileNotFoundError (path : str)
| IndexError
| KeyError (key : Z)
| ValueError (msg : str)
| ConversionError (text : str)   (* the ValueError of int() and float() *)
| UnpackError                    (* the ValueError of tuple unpacking *)
| SystemExit (code : Z).

Inductive result (A : Type) :=
| Ok (a : A)
| Raise (e : exn).
Arguments Ok {A} a.
Arguments Raise {A} e.

#[global] Instance result_ret : MRet result := @Ok.
#[global] Instance result_bind : MBind result := fun A B f r =>
  match r with
  | Ok a => f a
  | Raise e => Raise e
  end.

(** [for x in l: s = body(s, x)], stopping at the first exception. *)
Fixpoint for_ {A S : Type} (body : S → A → result S) (s : S) (l : list A)
  : result S :=
  match l with
  | [] => Ok s
  | a :: l' => s' ← body s a; for_ body s' l'
  end.

(** [[f(x) for x in l]], stopping at the first exception. *)
Fixpoint comprehension {A B : Type} (f : A → result B) (l : list A)
  : result (list B) :=
  match l with
  | [] => Ok []
  | a :: l' => b ← f a; bs ← comprehension f l'; Ok (b :: bs)
  end.

(** ** Sequences and dictionaries *)

(** [l[i]] on a tuple or list: a negative index counts from the end. *)
Definition getitem {A : Type} (l : list A) (i : Z) : result A :=
  let len := Z.of_nat (length l) in
  let i' := if i <? 0 then i + len else i in
  if (i' <? 0) || (len <=? i') then Raise IndexError
  else match l !! Z.to_nat i' with
       | Some a => Ok a
       | None => Raise IndexError
       end.

(** [enumerate(l)] *)
Definition enumerate {A : Type} (l : list A) : list (Z * A) :=
  imap (fun i a => (Z.of_nat i, a)) l.

(** [d[k]] on a dict *)
Definition dict_getitem {V : Type} (d : gmap Z V) (k : Z) : result V :=
  match d !! k with
  | Some v => Ok v
  | None => Raise (KeyError k)
  end.

(** [sorted(list(d.keys()))] *)
Definition sorted_keys {V : Type} (d : gmap Z V) : list Z :=
  merge_sort Z.le (map_to_list d).*1.

(** ** The expansion records *)

Module Expansion.
(** The [types.SimpleNamespace] built by [read_expansion]. *)
Record t := mk { element : Z; orig : list Z; new : list Z }.

#[global] Instance eq_dec : EqDecision t.
Proof. solve_decision. Defined.
End Expansion.

(** ** new_displacements *)

(** The table from expanded-element slots to original-element slots. *)
Definition mapping : gmap Z Z :=
  list_to_map
    [ (0, 0); (1, 1); (2, 2); (3, 0); (4, 1); (5, 2); (6, 3); (7, 4);
      (8, 5); (9, 3); (10, 4); (11, 5); (12, 0); (13, 1); (14, 2) ].

Section new_displacements.
Context {D : Type}.   (* a displacement: whatever [orig] holds *)

(** The body of the inner loop:
    [if n not in newdisp: newdisp[n] = orig[org[mapping[x]]-1]]. *)
Definition assign (orig : list D) (org : list Z) (newdisp : gmap Z D)
    (xn : Z * Z) : result (gmap Z D) :=
  let '(x, n) := xn in
  match newdisp !! n with
  | Some _ => Ok newdisp
  | None =>
      j ← dict_getitem mapping x;
      o ← getitem org j;
      d ← getitem orig (o - 1);
      Ok (<[n := d]> newdisp)
  end.

(** The body of the outer loop. *)
Definition expand (orig : list D) (newdisp : gmap Z D) (e : Expansion.t)
  : result (gmap Z D) :=
  let org := Expansion.orig e in
  let new := Expansion.new e in
  for_ (assign orig org) newdisp (enumerate new).

Definition new_displacements (orig : list D) (expansion : list Expansion.t)
  : result (list (Z * D)) :=
  newdisp ← for_ (expand orig) ∅ expansion;
  let idx := sorted_keys newdisp in
  comprehension (fun i => d ← dict_getitem newdisp i; Ok (i, d)) idx.
End new_displacements.

(** The table of [mapping], slot by slot. *)
Definition table : list Z := [0; 1; 2; 0; 1; 2; 3; 4; 5; 3; 4; 5; 0; 1; 2].

(** The loops meet the new-node id [n] for the first time at slot [x] of
    the record [e], which is the record number [i]: no earlier record holds
    [n], and no earlier slot of [e] does. *)
Definition first_seen (expansion : list Expansion.t) (i : nat)
    (e : Expansion.t) (x : nat) (n : Z) : Prop :=
  expansion !! i = Some e
  ∧ Expansion.new e !! x = Some n
  ∧ (n ∉ take x (Expansion.new e))
  ∧ Forall (fun e' => n ∉ Expansion.new e') (take i expansion).

#[global] Instance first_seen_dec expansion i e x n :
  Decision (first_seen expansion i e x n).
Proof. unfold first_seen. apply _. Defined.

(** A record that [new_displacements] can process over [len] original
    displacements: at most 15 new nodes, at least 6 original nodes, and
    every original node id within the range of the indices of a tuple of
    length [len]. *)
Definition well_formed (len : nat) (e : Expansion.t) : Prop :=
  (length (Expansion.new e) ≤ 15)%nat
  ∧ (6 ≤ length (Expansion.orig e))%nat
  ∧ Forall (fun o => 1 - Z.of_nat len ≤ o ≤ Z.of_nat len) (Expansion.orig e).

(** Two records that share the new nodes 9 and 7, over three original
    nodes whose displacements are written as plain numbers. *)
Definition ex_e1 : Expansion.t := Expansion.mk 1 [1; 2; 3; 1; 2; 3] [9; 8; 7].
Definition ex_e2 : Expansion.t :=
  Expansion.mk 2 [3; 3; 3; 3; 3; 3] [7; 5; 9; 4].
Definition ex_orig : list Z := [100; 200; 300].
Definition ex_out : list (Z * Z) :=
  [(4, 300); (5, 300); (7, 300); (8, 200); (9, 100)].


(** ** Text *)

(** An ASCII literal as a [str]. *)
Definition lit (s : string) : str := N_of_ascii <$> list_ascii_of_string s.

Definition newline : N := 10%N.

(** The characters [str.strip] and [str.split] treat as white space. *)
Definition is_space (c : N) : bool :=
  ((9 <=? c) && (c <=? 13) || (28 <=? c) && (c <=? 32)
   || (c =? 133) || (c =? 160) || (c =? 5760)
   || (8192 <=? c) && (c <=? 8202) || (c =? 8232) || (c =? 8233)
   || (c =? 8239) || (c =? 8287) || (c =? 12288))%N.

Fixpoint lstrip (s : str) : str :=
  match s with
  | c :: s' => if is_space c then lstrip s' else s
  | [] => []
  end.

(** [s.strip()] *)
Definition strip (s : str) : str := reverse (lstrip (reverse (lstrip s))).

Fixpoint split_go (word : str) (s : str) : list str :=
  match s with
  | [] => match word with [] => [] | _ => [reverse word] end
  | c :: s' =>
      if is_space c
      then match word with
           | [] => split_go [] s'
           | _ => reverse word :: split_go [] s'
           end
      else split_go (c :: word) s'
  end.

(** [s.split()] *)
Definition split (s : str) : list str := split_go [] s.

(** [s.startswith(p)] *)
Fixpoint startswith (s p : str) : bool :=
  match p, s with
  | [], _ => true
  | a :: p', b :: s' => (a =? b)%N && startswith s' p'
  | _ :: _, [] => false
  end.

(** [sub in s] *)
Fixpoint contains (sub s : str) : bool :=
  startswith s sub || match s with
                      | [] => false
                      | _ :: s' => contains sub s'
                      end.

(** [str(n)] for an int *)
Definition str_of_int (n : Z) : str :=
  lit (NilZero.string_of_int (Z.to_int n)).

(** Right-justify in [width] columns, as [:>width] does. *)
Definition rjust (width : nat) (s : str) : str :=
  replicate (width - length s) 32%N ++ s.

(** The lines of a text, each with its terminator, as [readlines] gives
    them. A text is what Python's text layer presents: decoded, and with
    line ends already translated to the newline character. *)
Fixpoint readlines (s : str) : list str :=
  match s with
  | [] => []
  | c :: s' =>
      if (c =? newline)%N then [c] :: readlines s'
      else match readlines s' with
           | [] => [[c]]
           | ln :: lns => (c :: ln) :: lns
           end
  end.

(** [l[start:stop]] *)
Definition slice {A : Type} (l : list A) (start stop : Z) : list A :=
  let len := Z.of_nat (length l) in
  let clamp i := if i <? 0 then Z.max 0 (i + len) else Z.min i len in
  let a := clamp start in
  let b := clamp stop in
  take (Z.to_nat (b - a)) (drop (Z.to_nat a) l).

(** [l[start:]] and [l[:stop]] *)
Definition slice_from {A : Type} (l : list A) (start : Z) : list A :=
  slice l start (Z.of_nat (length l)).
Definition slice_to {A : Type} (l : list A) (stop : Z) : list A :=
  slice l 0 stop.

(** [[n for n, x in enumerate(l) if p(x)]] *)
Definition indices {A : Type} (p : A → bool) (l : list A) : list Z :=
  (filter (fun nx => p nx.2 = true) (enumerate l)).*1.

(** The same for a list whose first element has the number [k]. *)
Definition numbered {A : Type} (k : nat) (l : list A) : list (Z * A) :=
  imap (fun i a => (Z.of_nat (k + i), a)) l.
Definition indices_from {A : Type} (p : A → bool) (k : nat) (l : list A)
  : list Z :=
  (filter (fun nx : Z * A => p nx.2 = true) (numbered k l)).*1.

(** ** Formatting a float with the format specification [" 11.5E"] *)

(** The decimal exponent of [a/b >= 1]: the largest [k] with
    [b * 10^k <= a], searched upwards from [k]. *)
Fixpoint exp_up (fuel : nat) (a b k : Z) : Z :=
  match fuel with
  | O => k
  | S fuel' => if b * 10 ^ (k + 1) <=? a then exp_up fuel' a b (k + 1) else k
  end.

(** For [a/b < 1]: the smallest [j] with [b <= a * 10^j], searched
    upwards from [j]. *)
Fixpoint exp_down (fuel : nat) (a b j : Z) : Z :=
  match fuel with
  | O => j
  | S fuel' => if b <=? a * 10 ^ j then j else exp_down fuel' a b (j + 1)
  end.

Definition decimal_exponent (a b : Z) : Z :=
  if b <=? a then exp_up (Z.to_nat (Z.log2 a) + 1) a b 0
  else - exp_down (Z.to_nat (Z.log2 b) + 1) a b 1.

(** [num/den] rounded to the nearest integer, ties to even. *)
Definition round_half_even (num den : Z) : Z :=
  let q := num / den in
  let r := num mod den in
  if 2 * r <? den then q
  else if den <? 2 * r then q + 1
  else if Z.even q then q else q + 1.

(** [m * 2^e] as six significant decimal digits [d] and a decimal
    exponent [k]: the value rounds to [d * 10^(k-5)]. *)
Definition sci6 (m : positive) (e : Z) : Z * Z :=
  let a := if 0 <=? e then Z.pos m * 2 ^ e else Z.pos m in
  let b := if 0 <=? e then 1 else 2 ^ (- e) in
  let k := decimal_exponent a b in
  let d := if k <=? 5 then round_half_even (a * 10 ^ (5 - k)) b
           else round_half_even a (b * 10 ^ (k - 5)) in
  if d =? 1000000 then (100000, k + 1) else (d, k).

Definition digit (d : Z) : N := (48 + Z.to_N (d mod 10))%N.

(** The text of the digits [d] at exponent [k]: [D.DDDDDE+XX]. *)
Definition sci_text (d k : Z) : str :=
  [digit (d / 100000); 46%N; digit (d / 10000); digit (d / 1000);
   digit (d / 100); digit (d / 10); digit d; 69%N;
   (if k <? 0 then 45%N else 43%N)]
  ++ (if Z.abs k <? 10 then [48%N] else []) ++ str_of_int (Z.abs k).

(** [format(x, " 11.5E")]: a space or a minus sign, then the number with
    five digits after the point and an exponent of at least two digits,
    right-justified in at least 11 columns. *)
Definition format_E (x : spec_float) : str :=
  rjust 11
    match x with
    | S754_zero s => (if s then 45%N else 32%N) :: sci_text 0 0
    | S754_infinity s => (if s then 45%N else 32%N) :: lit "INF"
    | S754_nan => 32%N :: lit "NAN"
    | S754_finite s m e =>
        let '(d, k) := sci6 m e in
        (if s then 45%N else 32%N) :: sci_text d k
    end.

(** ** Files and standard output *)

Inductive event :=
| OpenRead (path : str)
| OpenWrite (path : str)
| Print (text : str).

(** The files by path, and the effects so far, oldest first. *)
Record world := World { files : gmap str str; events : list event }.

(** A computation that may read and change the world and may raise. *)
Definition io (A : Type) : Type := world → result A * world.

#[global] Instance io_ret : MRet io := fun A a w => (Ok a, w).
#[global] Instance io_bind : MBind io := fun A B f m w =>
  match m w with
  | (Ok a, w') => f a w'
  | (Raise e, w') => (Raise e, w')
  end.

Definition lift {A : Type} (r : result A) : io A := fun w => (r, w).

Definition raise {A : Type} (e : exn) : io A := lift (Raise e).

Definition log (ev : event) (w : world) : world :=
  World (files w) (events w ++ [ev]).

(** [with open(path) as dat: dat.readlines()] *)
Definition open_readlines (path : str) : io (list str) := fun w =>
  match files w !! path with
  | Some text => (Ok (readlines text), log (OpenRead path) w)
  | None => (Raise (FileNotFoundError path), log (OpenRead path) w)
  end.

(** [with open(path, 'wt') as newdat: newdat.writelines(lines)]: the file
    is created or truncated, and holds the lines one after the other. *)
Definition open_writelines (path : str) (lines : list str) : io unit :=
  fun w =>
    (Ok (), World (<[path := concat lines]> (files w))
                  (events w ++ [OpenWrite path])).

(** [print(text)] *)
Definition print (text : str) : io unit := fun w =>
  (Ok (), log (Print (text ++ [newline])) w).

(** ** The module *)

(** [__doc__] *)
Definition doc : str :=
  lit "Post-process OUTPUT=3D data to generate proper node displacement."
  ++ [newline; newline]
  ++ lit "This is used when the card *NODE FILE,OUTPUT=3D is used. That output format"
  ++ [newline]
  ++ lit "does *not* output displacements when specified."
  ++ [newline; newline]
  ++ lit "Instead, add a *NODE PRINT,NSET=Nall for displacement. This script then pulls"
  ++ [newline]
  ++ lit "the displacement data from the .dat file, and the link between original and"
  ++ [newline]
  ++ lit "expanded elements from the log file."
  ++ [newline; newline]
  ++ lit "Usage: " ++ [8220%N] ++ lit "python3 post.py <basename>" ++ [8221%N]
  ++ [newline].

Section post.
(** The builtins [float()] and [int()] on a [str]; [None] is their
    ValueError. *)
Variable py_float : str → option spec_float.
Variable py_int : str → option Z.

Definition float (s : str) : result spec_float :=
  match py_float s with
  | Some x => Ok x
  | None => Raise (ConversionError s)
  end.

Definition int (s : str) : result Z :=
  match py_int s with
  | Some n => Ok n
  | None => Raise (ConversionError s)
  end.

Definition read_displacements (base : str) : io (list (list spec_float)) :=
  raw ← open_readlines (base ++ lit ".dat");
  let lines := strip <$> raw in
  lift (
    e ← getitem (indices (contains (lit "energy")) lines) 0;
    let start := e + 2 in
    let end_ := start - 3 in
    d ← getitem (indices (contains (lit "displacements")) lines) 0;
    let start := d + 2 in
    comprehension (fun ln => comprehension float (slice_from (split ln) 1))
                  (slice lines start end_)).

(** The body of the loop of [read_expansion]. *)
Definition read_element (lines : list str) (rv : list Expansion.t) (i : Z)
  : result (list Expansion.t) :=
  ln ← getitem lines i;
  tok ← getitem (split ln) 1;
  element ← int tok;
  ln1 ← getitem lines (i + 1);
  orig ← comprehension int (split ln1);
  ln3 ← getitem lines (i + 3);
  new3 ← comprehension int (split ln3);
  ln4 ← getitem lines (i + 4);
  new4 ← comprehension int (split ln4);
  Ok (rv ++ [Expansion.mk element orig (new3 ++ new4)]).

Definition read_expansion (base : str) : io (list Expansion.t) :=
  raw ← open_readlines (base ++ lit ".12d");
  let lines := strip <$> raw in
  let indices := indices (fun ln => startswith ln (lit "ELEMENT")) lines in
  lift (for_ (read_element lines) [] indices).

(** One line of the displacement block of the .frd file. *)
Definition record (node : Z) (dx dy dz : spec_float) : str :=
  lit " -1" ++ rjust 10 (str_of_int node)
  ++ format_E dx ++ format_E dy ++ format_E dz ++ [newline].

(** The body of the loop of [splice]. *)
Definition splice_append (splice : list str) (nd : Z * list spec_float)
  : result (list str) :=
  match nd with
  | (node, [dx; dy; dz]) => Ok (splice ++ [record node dx dy dz])
  | _ => Raise UnpackError
  end.

Definition splice (base : str) (new : list (Z * list spec_float)) : io unit :=
  lines ← open_readlines (base ++ lit ".frd");
  i ← lift (getitem (indices (contains (lit "DISP")) lines) 0);
  let idx := i + 5 in
  ln ← lift (getitem lines idx);
  _ ← (if negb (startswith (strip ln) (lit "-3"))
       then raise (ValueError (lit "wrong offset: " ++ str_of_int idx))
       else mret ());
  splice ← lift (for_ splice_append [] new);
  let before := slice_to lines idx in
  let after := slice_from lines idx in
  let total := before ++ splice ++ after in
  open_writelines (base ++ lit "-post.frd") total.

(** [main] reads [sys.argv], not its argument. *)
Definition main (sys_argv : list str) (argv : list str) : io unit :=
  _ ← (if Z.of_nat (length sys_argv) <? 2
       then (_ ← print doc; raise (SystemExit 1))
       else mret ());
  base ← lift (getitem sys_argv 1);
  orig_disp ← read_displacements base;
  base ← lift (getitem sys_argv 1);
  expansion ← read_expansion base;
  new ← lift (new_displacements orig_disp expansion);
  base ← lift (getitem sys_argv 1);
  splice base new.

(** [if __name__ == '__main__': main(sys.argv[1:])] *)
Definition run (sys_argv : list str) : io unit :=
  main sys_argv (slice_from sys_argv 1).
End post.

(** What [read_displacements] makes of a data line, in the words of the
    format: four tokens, of which the first is dropped and the other three
    are parsed as floats. *)
Definition data_line (py_float : str → option spec_float) (ln : str)
  : option (list spec_float) :=
  match split ln with
  | [_; tx; ty; tz] =>
      x ← py_float tx; y ← py_float ty; z ← py_float tz; Some [x; y; z]
  | _ => None
  end.

(** All the integers on a line. *)
Definition ints (py_int : str → option Z) (ln : str) : option (list Z) :=
  mapM py_int (split ln).

(** The record that starts at line [i], in the words of the format: the
    id is the second token of line [i], the original nodes are the integers
    of line [i + 1], the new nodes those of lines [i + 3] and [i + 4]. *)
Definition element_at (py_int : str → option Z) (lines : list str) (i : nat)
  : option Expansion.t :=
  ln ← lines !! i;
  tok ← split ln !! 1%nat;
  element ← py_int tok;
  ln1 ← lines !! (i + 1)%nat;
  orig ← ints py_int ln1;
  ln3 ← lines !! (i + 3)%nat;
  new3 ← ints py_int ln3;
  ln4 ← lines !! (i + 4)%nat;
  new4 ← ints py_int ln4;
  Some (Expansion.mk element orig (new3 ++ new4)).

(** Line [i] starts a record of the supported element type: 6 original
    nodes and 15 new ones. *)
Definition valid_element (py_int : str → option Z) (lines : list str)
    (i : nat) : Prop :=
  match element_at py_int lines i with
  | Some r => length (Expansion.orig r) = 6%nat
              ∧ length (Expansion.new r) = 15%nat
  | None => False
  end.

#[global] Instance valid_element_dec py_int lines i :
  Decision (valid_element py_int lines i).
Proof.
  unfold valid_element. destruct (element_at py_int lines i); apply _.
Defined.

(** A valid .12d file: every line that starts with "ELEMENT" starts such a
    record. *)
Definition valid_12d (py_int : str → option Z) (lines : list str) : Prop :=
  Forall (fun nl : nat * str =>
            startswith nl.2 (lit "ELEMENT") = true →
            valid_element py_int lines nl.1)
         (imap pair lines).

(** The line that [splice] formats for the pair [nd]. *)
Definition is_record (nd : Z * list spec_float) (line : str) : Prop :=
  ∃ dx dy dz, nd.2 = [dx; dy; dz] ∧ line = record nd.1 dx dy dz.

(** The stages after the check of the arguments, for the base name
    [base]. *)
Definition pipeline (py_float : str → option spec_float)
    (py_int : str → option Z) (base : str) : io unit :=
  orig_disp ← read_displacements py_float base;
  expansion ← read_expansion py_int base;
  new ← lift (new_displacements orig_disp expansion);
  splice base new.

(** The result is a raised SystemExit. *)
Definition exits {A : Type} (r : result A) : Prop :=
  ∃ code, r = Raise (SystemExit code).

(** The exit status of the interpreter. *)
Definition exit_status (r : result unit) : Z :=
  match r with
  | Ok _ => 0
  | Raise (SystemExit code) => code
  | Raise _ => 1
  end.


(** ** Notions used to state the properties *)

(** Line number [i] is the first line of [lines] that satisfies [p]. *)
Definition first_line {A : Type} (p : A → bool) (lines : list A) (i : nat)
  : Prop :=
  match lines !! i with
  | Some ln => p ln = true
  | None => False
  end
  ∧ Forall (fun ln => p ln = false) (take i lines).

#[global] Instance first_line_dec {A : Type} (p : A → bool) lines i :
  Decision (first_line p lines i).
Proof. unfold first_line. destruct (lines !! i); apply _. Defined.

(** A line ends with the newline character and holds no other one. *)
Definition terminated (ln : str) : Prop :=
  ∃ body, ln = body ++ [newline] ∧ newline ∉ body.

(** The lines of a text: all but the last are terminated, and the last is
    terminated or holds no newline and is not empty. *)
Fixpoint text_lines (lns : list str) : Prop :=
  match lns with
  | [] => True
  | [ln] => terminated ln ∨ (ln ≠ [] ∧ newline ∉ ln)
  | ln :: lns' => terminated ln ∧ text_lines lns'
  end.

Definition is_digit (c : N) : Prop := (48 ≤ c ≤ 57)%N.

(** Signed scientific notation with five digits after the point: a space
    or a minus sign, one digit, the point, five digits, [E], the sign of
    the exponent and at least two digits of exponent. *)
Definition scientific (s : str) : Prop :=
  ∃ sign d0 frac esign ex,
    s = sign :: d0 :: 46%N :: frac ++ 69%N :: esign :: ex
    ∧ (sign = 32%N ∨ sign = 45%N)
    ∧ is_digit d0
    ∧ length frac = 5%nat ∧ Forall is_digit frac
    ∧ (esign = 43%N ∨ esign = 45%N)
    ∧ (2 ≤ length ex)%nat ∧ Forall is_digit ex.

(** No character below the space, so no newline. *)
Definition visible (s : str) : Prop := Forall (fun c => (32 ≤ c)%N) s.

(** A float that is neither an infinity nor a NaN. *)
Definition finite (x : spec_float) : Prop :=
  match x with
  | S754_zero _ | S754_finite _ _ _ => True
  | S754_infinity _ | S754_nan => False
  end.

(** Plain decimal literals, which [int()] and [float()] both accept: an
    optional sign and one or more ASCII digits. They stand for the builtins
    in the examples. *)
Fixpoint digits_value (acc : Z) (s : str) : option Z :=
  match s with
  | [] => Some acc
  | c :: s' =>
      if ((48 <=? c) && (c <=? 57))%N
      then digits_value (10 * acc + Z.of_N (c - 48)) s'
      else None
  end.

Definition unsigned_literal (s : str) : option Z :=
  match s with
  | [] => None
  | _ :: _ => digits_value 0 s
  end.

Definition int_literal (s : str) : option Z :=
  match s with
  | 45%N :: s' => Z.opp <$> unsigned_literal s'
  | 43%N :: s' => unsigned_literal s'
  | _ => unsigned_literal s
  end.

Definition float_of_Z (negative : bool) (n : Z) : spec_float :=
  match n with
  | Z.pos m => S754_finite negative m 0
  | _ => S754_zero negative
  end.

Definition float_literal (s : str) : option spec_float :=
  match s with
  | 45%N :: s' => float_of_Z true <$> unsigned_literal s'
  | 43%N :: s' => float_of_Z false <$> unsigned_literal s'
  | _ => float_of_Z false <$> unsigned_literal s
  end.

(** ** A small job *)

(** A text from its lines, each ended by a newline. *)
Definition text_of (lines : list string) : str :=
  concat ((fun ln => lit ln ++ [newline]) <$> lines).

Definition job_dat : str :=
  text_of
    [ "";
      " displacements (vx,vy,vz) for set NALL and time  1";
      "";
      "         1   1   0   0";
      "         2   0   2   0";
      "         3   0   0  -3";
      "         4   4   4   0";
      "         5   0   5   5";
      "         6  -6   0   6";
      "";
      " internal energy (elem, integ.pnt.,eint) for set EALL and time  1";
      "" ]%string.

Definition job_12d : str :=
  text_of
    [ " ELEMENT 1";
      "   1 2 3 4 5 6";
      " expanded into";
      "   10 11 12 13 14 15 16 17";
      "   18 19 20 21 22 23 24";
      " ELEMENT 2";
      "   2 3 4 5 6 1";
      " expanded into";
      "   10 11 12 25 26 27 28 29";
      "   30 31 32 33 34 35 36" ]%string.

Definition job_frd : str :=
  text_of
    [ "    1C";
      "    2C                             6                                     1";
      " -4  DISP        4    1";
      " -5  D1          1    2    1    0";
      " -5  D2          1    2    2    0";
      " -5  D3          1    2    3    0";
      " -5  ALL         1    2    0    0    1ALL";
      " -3";
      " 9999" ]%string.

(** The same results file with one line of the DISP header missing. *)
Definition bad_frd : str :=
  text_of
    [ "    1C";
      " -4  DISP        4    1";
      " -5  D1          1    2    1    0";
      " -5  D2          1    2    2    0";
      " -5  D3          1    2    3    0";
      " -3";
      " 9999" ]%string.

Definition job_files (frd : str) : gmap str str :=
  list_to_map
    [ (lit "job.dat", job_dat); (lit "job.12d", job_12d);
      (lit "job.frd", frd) ].

Definition job_world (frd : str) : world := World (job_files frd) [].

Definition job_new : list (Z * list spec_float) :=
  [ (10, [S754_finite false 1 0; S754_zero false; S754_zero false]);
    (11, [S754_zero false; S754_finite false 2 0; S754_zero false]) ].

(** ** Notions used to state the further properties *)

(** Every exception that [r] can be satisfies [P]. *)
Definition raises_in {A : Type} (P : exn → Prop) (r : result A) : Prop :=
  ∀ e, r = Raise e → P e.

(** What the comprehension of [read_displacements] makes of any line: the
    floats of all its tokens but the first. *)
Definition floats_after_first (py_float : str → option spec_float)
    (ln : str) : option (list spec_float) :=
  mapM py_float (drop 1 (split ln)).

(** The line numbers of the lines that start with "ELEMENT". *)
Definition markers (lines : list str) : list nat :=
  Z.to_nat <$> indices (fun ln => startswith ln (lit "ELEMENT")) lines.

(** A record with sixteen new nodes, none of them seen before, and a
    record of two known new nodes without any original node. *)
Definition wide_e : Expansion.t :=
  Expansion.mk 3 [1; 2; 3; 1; 2; 3]
    [20; 21; 22; 23; 24; 25; 26; 27; 28; 29; 30; 31; 32; 33; 34; 35].
Definition known_e : Expansion.t := Expansion.mk 4 [] [9; 7].

(** Pairs of which the second holds no component. *)
Definition ragged_new : list (Z * list spec_float) :=
  [ (10, [S754_finite false 1 0; S754_zero false; S754_zero false]);
    (11, []) ].

(** A results file without a DISP block, and one that ends four lines
    after the DISP line. *)
Definition no_disp_frd : str :=
  text_of [ "    1C"; " -3"; " 9999" ]%string.
Definition cut_frd : str :=
  text_of
    [ "    1C";
      " -4  DISP        4    1";
      " -5  D1          1    2    1    0";
      " -5  D2          1    2    2    0";
      " -5  D3          1    2    3    0";
      " -5  ALL         1    2    0    0    1ALL" ]%string.

(** A world with a single file. *)
Definition one_file (path text : str) : world := World {[ path := text ]} [].

(** Results files in which the energy block does not follow the
    displacements: it comes first, or at the very first line, or the data
    hold a blank line, or there is no energy block. *)
Definition energy_before_dat : str :=
  text_of
    [ "";
      " internal energy (elem, integ.pnt.,eint) for set EALL and time  1";
      "";
      "         1         1   7";
      "";
      " displacements (vx,vy,vz) for set NALL and time  1";
      "";
      "         1   1   0   0";
      "         2   0   2   0";
      "" ]%string.

Definition energy_first_dat : str :=
  text_of
    [ " internal energy (elem, integ.pnt.,eint) for set EALL and time  1";
      " displacements (vx,vy,vz) for set NALL and time  1";
      "";
      "         1   1   0   0";
      "         2   0   2   0";
      "" ]%string.

Definition ragged_dat : str :=
  text_of
    [ " displacements (vx,vy,vz) for set NALL and time  1";
      "";
      "         1   1   0   0";
      "";
      "         3   0";
      "";
      " internal energy (elem, integ.pnt.,eint) for set EALL and time  1" ]%string.

Definition no_energy_dat : str :=
  text_of
    [ " displacements (vx,vy,vz) for set NALL and time  1";
      "";
      "         1   1   0   0";
      "" ]%string.

(** Expansion logs: one whose last record is cut short, and one whose
    record holds 5 original nodes and 4 new ones. *)
Definition truncated_12d : str :=
  text_of
    [ " ELEMENT 1";
      "   1 2 3 4 5 6";
      " expanded into";
      "   10 11 12 13 14 15 16 17";
      "   18 19 20 21 22 23 24";
      " ELEMENT 2";
      "   2 3 4 5 6 1";
      " expanded into" ]%string.

Definition short_12d : str :=
  text_of
    [ " ELEMENT 7 S6";
      "   1 2 3 4 5";
      " expanded into";
      "   10 11";
      "   12 13" ]%string.

(** * Properties *)

(** Closed goals are settled by evaluation. *)
Ltac run := vm_compute; reflexivity.
Ltac decided := apply (bool_decide_unpack _); vm_compute; exact I.

(** ** The exception monad and the loops *)

Lemma bind_Ok {A B : Type} (r : result A) (f : A → result B) (b : B) :
  r ≫= f = Ok b ↔ ∃ a, r = Ok a ∧ f a = Ok b.
Proof.
  destruct r as [a|e]; simpl; split.
  - eauto.
  - by intros (a' & [= ->] & ?).
  - discriminate.
  - by intros (a' & ? & ?).
Qed.

Lemma for_app {A S : Type} (body : S → A → result S) s l1 l2 :
  for_ body s (l1 ++ l2) = for_ body s l1 ≫= fun s' => for_ body s' l2.
Proof.
  revert s. induction l1 as [|a l1 IH]; intros s; simpl; [done|].
  destruct (body s a) as [s'|e]; simpl; [apply IH | done].
Qed.

Lemma comprehension_Ok {A B : Type} (f : A → result B) l bs :
  comprehension f l = Ok bs ↔ Forall2 (fun a b => f a = Ok b) l bs.
Proof.
  revert bs. induction l as [|a l IH]; intros bs; simpl.
  - split; [intros [= <-]; constructor | by inversion 1].
  - rewrite bind_Ok. split.
    + intros (b & Hb & Hrest). apply bind_Ok in Hrest as (bs' & Hbs & [= <-]).
      constructor; [done | by apply IH].
    + inversion 1 as [|? b ? bs' Hb Hbs]; subst. exists b. split; [done|].
      apply IH in Hbs. by rewrite Hbs.
Qed.

(** ** Indexing *)

Lemma getitem_Ok {A : Type} (l : list A) (i : Z) (a : A) :
  getitem l i = Ok a ↔
    (0 ≤ i ∧ l !! Z.to_nat i = Some a)
    ∨ (i < 0 ∧ 0 ≤ i + Z.of_nat (length l)
       ∧ l !! Z.to_nat (i + Z.of_nat (length l)) = Some a).
Proof.
  unfold getitem. destruct (Z.ltb_spec i 0) as [Hi|Hi].
  - destruct (Z.ltb_spec (i + Z.of_nat (length l)) 0) as [Hn|Hn]; simpl.
    + split; [discriminate | intros [[? _]|(_ & ? & _)]; lia].
    + destruct (Z.leb_spec (Z.of_nat (length l)) (i + Z.of_nat (length l)));
        [lia|].
      destruct (l !! Z.to_nat (i + Z.of_nat (length l))) as [a'|] eqn:E.
      * split; [intros [= ->]; right; done|].
        intros [[? _]|(_ & _ & [= ->])]; [lia | done].
      * split; [discriminate | intros [[? _]|(_ & _ & ?)]; [lia | done]].
  - destruct (Z.ltb_spec i 0); [lia|]. simpl.
    destruct (Z.leb_spec (Z.of_nat (length l)) i) as [Hlen|Hlen].
    + split; [discriminate|].
      intros [[_ Hl]|[? _]]; [|lia].
      apply lookup_lt_Some in Hl. lia.
    + destruct (l !! Z.to_nat i) as [a'|] eqn:E.
      * split; [intros [= ->]; left; done|].
        intros [[_ [= ->]]|[? _]]; [done | lia].
      * split; [discriminate | intros [[_ ?]|[? _]]; [done | lia]].
Qed.

Lemma getitem_Raise {A : Type} (l : list A) (i : Z) (e : exn) :
  getitem l i = Raise e ↔
    e = IndexError
    ∧ (Z.of_nat (length l) ≤ i ∨ i < - Z.of_nat (length l)).
Proof.
  unfold getitem. destruct (Z.ltb_spec i 0) as [Hi|Hi].
  - destruct (Z.ltb_spec (i + Z.of_nat (length l)) 0) as [Hn|Hn]; simpl.
    + split; [intros [= <-]; split; [done | lia] | by intros [-> _]].
    + destruct (Z.leb_spec (Z.of_nat (length l)) (i + Z.of_nat (length l)));
        [lia|].
      destruct (l !! Z.to_nat (i + Z.of_nat (length l))) as [a'|] eqn:E.
      * split; [discriminate | intros [_ ?]; lia].
      * apply lookup_ge_None in E. lia.
  - destruct (Z.ltb_spec i 0); [lia|]. simpl.
    destruct (Z.leb_spec (Z.of_nat (length l)) i) as [Hlen|Hlen].
    + split; [intros [= <-]; split; [done | lia] | by intros [-> _]].
    + destruct (l !! Z.to_nat i) as [a'|] eqn:E.
      * split; [discriminate | intros [_ ?]; lia].
      * apply lookup_ge_None in E. lia.
Qed.

Lemma getitem_nonneg {A : Type} (l : list A) (i : Z) (a : A) :
  0 ≤ i → getitem l i = Ok a ↔ l !! Z.to_nat i = Some a.
Proof.
  intros Hi. rewrite getitem_Ok. split; [|by left].
  intros [[_ ?]|[? _]]; [done | lia].
Qed.

Lemma enumerate_lookup {A : Type} (l : list A) (k : nat) (x : Z) (a : A) :
  enumerate l !! k = Some (x, a) ↔ x = Z.of_nat k ∧ l !! k = Some a.
Proof.
  unfold enumerate. rewrite list_lookup_imap.
  destruct (l !! k) as [a'|]; simpl; [|split; [done | by intros [_ ?]]].
  split; [by intros [= <- <-] | by intros [-> [= ->]]].
Qed.

Lemma enumerate_snd {A : Type} (l : list A) : (enumerate l).*2 = l.
Proof.
  apply list_eq. intros k. rewrite list_lookup_fmap.
  unfold enumerate. rewrite list_lookup_imap.
  by destruct (l !! k).
Qed.

(** ** The dictionary built by new_displacements *)

Section newdisp.
Context {D : Type}.
Implicit Types (orig : list D) (org : list Z) (m : gmap Z D).
Implicit Types (l : list (Z * Z)) (n x : Z).

Lemma assign_Ok orig org m x n m' :
  assign orig org m (x, n) = Ok m' ↔
    (is_Some (m !! n) ∧ m' = m)
    ∨ (m !! n = None
       ∧ ∃ j o d, mapping !! x = Some j ∧ getitem org j = Ok o
                  ∧ getitem orig (o - 1) = Ok d ∧ m' = <[n := d]> m).
Proof.
  unfold assign. destruct (m !! n) as [d0|] eqn:Hn.
  - split; [intros [= <-]; left; eauto|].
    intros [[_ ->]|[? _]]; done.
  - unfold dict_getitem. split.
    + intros H. right. split; [done|].
      destruct (mapping !! x) as [j|]; [|done]. simpl in H.
      apply bind_Ok in H as (o & Ho & H).
      apply bind_Ok in H as (d & Hd & [= <-]). by exists j, o, d.
    + intros [[[? ?] _]|(_ & j & o & d & -> & Ho & Hd & ->)]; [done|].
      simpl. rewrite Ho. simpl. by rewrite Hd.
Qed.

Lemma inner_mono orig org l m m' n d :
  for_ (assign orig org) m l = Ok m' → m !! n = Some d → m' !! n = Some d.
Proof.
  revert m. induction l as [|[x k] l IH]; intros m; simpl.
  - by intros [= <-].
  - rewrite bind_Ok. intros (m1 & H1 & Hrest) Hn. apply (IH m1 Hrest).
    apply assign_Ok in H1 as [[_ ->]|(Hk & j & o & d' & _ & _ & _ & ->)];
      [done|].
    rewrite lookup_insert_ne; [done | congruence].
Qed.

Lemma inner_dom orig org l m m' n :
  for_ (assign orig org) m l = Ok m' →
  is_Some (m' !! n) ↔ is_Some (m !! n) ∨ n ∈ l.*2.
Proof.
  revert m. induction l as [|[x k] l IH]; intros m; simpl.
  - intros [= <-]. rewrite elem_of_nil. tauto.
  - rewrite bind_Ok. intros (m1 & H1 & Hrest).
    rewrite (IH m1 Hrest), elem_of_cons.
    apply assign_Ok in H1 as [[Hk ->]|(Hk & j & o & d' & _ & _ & _ & ->)].
    + split; [tauto|]. intros [?|[->|?]]; auto.
    + rewrite lookup_insert_is_Some. split.
      * intros [[->|[_ ?]]|?]; auto.
      * intros [?|[->|?]]; auto. destruct (decide (k = n)); auto.
Qed.

Lemma inner_first orig org l1 l2 m m' x n :
  for_ (assign orig org) m (l1 ++ (x, n) :: l2) = Ok m' →
  m !! n = None → n ∉ l1.*2 →
  ∃ j o d, mapping !! x = Some j ∧ getitem org j = Ok o
           ∧ getitem orig (o - 1) = Ok d ∧ m' !! n = Some d.
Proof.
  rewrite for_app, bind_Ok. intros (m1 & H1 & H2) Hn Hl1.
  simpl in H2. apply bind_Ok in H2 as (m2 & Hstep & Hrest).
  assert (m1 !! n = None) as Hn1.
  { apply eq_None_not_Some. rewrite (inner_dom _ _ _ _ _ _ H1).
    intros [?|?]; [|done]. by rewrite Hn in H; destruct H. }
  apply assign_Ok in Hstep as [[Hs _]|(_ & j & o & d & Hj & Ho & Hd & ->)].
  { rewrite Hn1 in Hs. by destruct Hs. }
  exists j, o, d. repeat split; try done.
  apply (inner_mono _ _ _ _ _ _ _ Hrest). apply lookup_insert_eq.
Qed.

Lemma expand_first orig m m' e (x : nat) n :
  expand orig m e = Ok m' → m !! n = None →
  Expansion.new e !! x = Some n →
  (∀ x' : nat, (x' < x)%nat → Expansion.new e !! x' ≠ Some n) →
  ∃ j o d, mapping !! Z.of_nat x = Some j
           ∧ getitem (Expansion.orig e) j = Ok o
           ∧ getitem orig (o - 1) = Ok d ∧ m' !! n = Some d.
Proof.
  unfold expand. intros H Hn Hx Hfirst.
  assert (enumerate (Expansion.new e) !! x = Some (Z.of_nat x, n)) as Hen
    by by apply enumerate_lookup.
  rewrite <- (take_drop_middle _ _ _ Hen) in H.
  apply (inner_first _ _ _ _ _ _ _ _ H Hn).
  rewrite fmap_take, enumerate_snd. intros Hin.
  apply list_elem_of_lookup in Hin as [x' Hx'].
  apply lookup_take_Some in Hx' as [Hx' Hlt]. by apply (Hfirst x').
Qed.

Lemma outer_mono orig (expansion : list Expansion.t) m m' n d :
  for_ (expand orig) m expansion = Ok m' →
  m !! n = Some d → m' !! n = Some d.
Proof.
  revert m. induction expansion as [|e es IH]; intros m; simpl.
  - by intros [= <-].
  - rewrite bind_Ok. intros (m1 & H1 & Hrest) Hn. apply (IH m1 Hrest).
    by apply (inner_mono _ _ _ _ _ _ _ H1).
Qed.

Lemma outer_dom orig (expansion : list Expansion.t) m m' n :
  for_ (expand orig) m expansion = Ok m' →
  is_Some (m' !! n) ↔
    is_Some (m !! n) ∨ ∃ e, e ∈ expansion ∧ n ∈ Expansion.new e.
Proof.
  revert m. induction expansion as [|e es IH]; intros m; simpl.
  - intros [= <-]. split; [auto|].
    intros [?|(e & He & _)]; [done | by apply elem_of_nil in He].
  - rewrite bind_Ok. intros (m1 & H1 & Hrest). rewrite (IH m1 Hrest).
    unfold expand in H1. rewrite (inner_dom _ _ _ _ _ _ H1), enumerate_snd.
    split.
    + intros [[?|?]|(e' & He' & ?)]; [auto| |].
      * right. exists e. split; [apply elem_of_cons; auto | done].
      * right. exists e'. split; [apply elem_of_cons; auto | done].
    + intros [?|(e' & He' & ?)]; [auto|].
      apply elem_of_cons in He' as [->|He']; [auto|].
      right. by exists e'.
Qed.

Lemma outer_first orig (expansion : list Expansion.t) m m' e (i x : nat) n :
  for_ (expand orig) m expansion = Ok m' → m !! n = None →
  expansion !! i = Some e →
  (∀ (i' : nat) e', (i' < i)%nat → expansion !! i' = Some e' →
                    n ∉ Expansion.new e') →
  Expansion.new e !! x = Some n →
  (∀ x' : nat, (x' < x)%nat → Expansion.new e !! x' ≠ Some n) →
  ∃ j o d, mapping !! Z.of_nat x = Some j
           ∧ getitem (Expansion.orig e) j = Ok o
           ∧ getitem orig (o - 1) = Ok d ∧ m' !! n = Some d.
Proof.
  intros H Hn Hi Hbefore Hx Hfirst.
  rewrite <- (take_drop_middle _ _ _ Hi), for_app, bind_Ok in H.
  destruct H as (m1 & H1 & H2). simpl in H2.
  apply bind_Ok in H2 as (m2 & Hstep & Hrest).
  assert (m1 !! n = None) as Hn1.
  { apply eq_None_not_Some. rewrite (outer_dom _ _ _ _ _ H1).
    intros [Hs|(e' & He' & Hin)]; [by rewrite Hn in Hs; destruct Hs|].
    apply list_elem_of_lookup in He' as [i' Hi'].
    apply lookup_take_Some in Hi' as [Hi' Hlt].
    by apply (Hbefore i' e'). }
  destruct (expand_first _ _ _ _ _ _ Hstep Hn1 Hx Hfirst)
    as (j & o & d & Hj & Ho & Hd & Hm2).
  exists j, o, d. repeat split; try done.
  by apply (outer_mono _ _ _ _ _ _ Hrest).
Qed.

(** The last line: the pairs in the order of the sorted keys. *)
Lemma pairs_Ok m (idx : list Z) (out : list (Z * D)) :
  comprehension (fun i => d ← dict_getitem m i; Ok (i, d)) idx = Ok out →
  out.*1 = idx ∧ ∀ n d, (n, d) ∈ out ↔ n ∈ idx ∧ m !! n = Some d.
Proof.
  rewrite comprehension_Ok. induction 1 as [|i [k d'] idx out Hi _ IH].
  - split; [done|]. intros n d. rewrite !elem_of_nil. tauto.
  - unfold dict_getitem in Hi. destruct (m !! i) as [di|] eqn:Hm; [|done].
    simpl in Hi. injection Hi as <- <-. destruct IH as [IH1 IH2].
    split; [rewrite fmap_cons; simpl; by f_equal|].
    intros n d. rewrite !elem_of_cons, IH2. split.
    + intros [[= -> ->]|[? ?]]; auto.
    + intros [[->|?] Hd]; [left; congruence | auto].
Qed.

Lemma pairs_total m (idx : list Z) :
  (∀ i, i ∈ idx → is_Some (m !! i)) →
  ∃ out, comprehension (fun i => d ← dict_getitem m i; Ok (i, d)) idx
         = Ok out.
Proof.
  induction idx as [|i idx IH]; intros Hall; [by eexists|].
  destruct (Hall i) as [d Hd]; [by left|].
  destruct IH as [out Hout]; [intros; apply Hall; by right|].
  exists ((i, d) :: out). apply comprehension_Ok. constructor.
  - unfold dict_getitem. by rewrite Hd.
  - by apply comprehension_Ok.
Qed.

Lemma sorted_keys_elem_of m n : n ∈ sorted_keys m ↔ is_Some (m !! n).
Proof.
  unfold sorted_keys. rewrite merge_sort_Permutation, list_elem_of_fmap.
  split.
  - intros ([k d] & -> & Hin). apply elem_of_map_to_list in Hin. eauto.
  - intros [d Hd]. exists (n, d). by rewrite elem_of_map_to_list.
Qed.

Lemma sorted_keys_NoDup m : NoDup (sorted_keys m).
Proof.
  unfold sorted_keys. rewrite merge_sort_Permutation.
  apply NoDup_fst_map_to_list.
Qed.

Lemma sorted_keys_lt m : StronglySorted Z.lt (sorted_keys m).
Proof.
  pose proof (sorted_keys_NoDup m) as Hnd.
  assert (StronglySorted Z.le (sorted_keys m)) as Hle.
  { apply StronglySorted_merge_sort; [apply _|].
    intros a b. destruct (Z.le_gt_cases a b); [by left | right; lia]. }
  induction Hle as [|a l _ IH Hall]; [constructor|].
  apply NoDup_cons in Hnd as [Ha Hnd]. constructor; [by apply IH|].
  apply Forall_forall. intros b Hb.
  rewrite Forall_forall in Hall. specialize (Hall b Hb).
  assert (a ≠ b) by (intros ->; done). lia.
Qed.

Lemma new_displacements_Ok orig (expansion : list Expansion.t) out :
  new_displacements orig expansion = Ok out →
  ∃ m, for_ (expand orig) ∅ expansion = Ok m
       ∧ out.*1 = sorted_keys m
       ∧ ∀ n d, (n, d) ∈ out ↔ m !! n = Some d.
Proof.
  unfold new_displacements. rewrite bind_Ok. intros (m & Hm & Hout).
  apply pairs_Ok in Hout as [Hkeys Hin]. exists m. repeat split; try done.
  - intros H. by apply Hin in H as [_ ?].
  - intros H. apply Hin. split; [|done]. apply sorted_keys_elem_of. eauto.
Qed.

(** The last line never raises: the run fails only inside the loops. *)
Lemma new_displacements_total orig (expansion : list Expansion.t) m :
  for_ (expand orig) ∅ expansion = Ok m →
  ∃ out, new_displacements orig expansion = Ok out.
Proof.
  intros Hm. unfold new_displacements. rewrite Hm. simpl.
  apply pairs_total. intros i. by rewrite sorted_keys_elem_of.
Qed.
End newdisp.

(** ** What new_displacements returns *)

Lemma mapping_table (x j : Z) :
  mapping !! x = Some j ↔ 0 ≤ x ∧ table !! Z.to_nat x = Some j.
Proof.
  assert (mapping = list_to_map (enumerate table)) as -> by reflexivity.
  rewrite <- elem_of_list_to_map
    by decided.
  rewrite list_elem_of_lookup. split.
  - intros [k Hk]. apply enumerate_lookup in Hk as [-> Hk].
    split; [lia | by rewrite Nat2Z.id].
  - intros [Hx Hj]. exists (Z.to_nat x). apply enumerate_lookup.
    split; [lia | done].
Qed.

Section results.
Context {D : Type}.
Implicit Types (orig : list D) (expansion : list Expansion.t).

Lemma first_seen_value orig expansion out i e x n :
  new_displacements orig expansion = Ok out →
  first_seen expansion i e x n →
  ∃ j o d, table !! x = Some j
           ∧ Expansion.orig e !! Z.to_nat j = Some o
           ∧ getitem orig (o - 1) = Ok d
           ∧ ∀ d', (n, d') ∈ out ↔ d' = d.
Proof.
  intros Hout (Hi & Hx & Hslots & Hrecs).
  apply new_displacements_Ok in Hout as (m & Hm & _ & Hin).
  destruct (outer_first orig expansion ∅ m e i x n Hm) as
    (j & o & d & Hj & Ho & Hd & Hn); try done.
  - intros i' e' Hlt Hi'. rewrite Forall_forall in Hrecs. apply Hrecs.
    apply list_elem_of_lookup. exists i'. by apply lookup_take_Some.
  - intros x' Hlt Hx'. apply Hslots. apply list_elem_of_lookup.
    exists x'. by apply lookup_take_Some.
  - apply mapping_table in Hj as [_ Hj]. rewrite Nat2Z.id in Hj.
    assert (0 ≤ j) as Hj0.
    { apply list_elem_of_lookup_2 in Hj. revert Hj.
      unfold table. rewrite !elem_of_cons, elem_of_nil. lia. }
    apply getitem_nonneg in Ho; [|done].
    exists j, o, d. repeat split; try done.
    + rewrite Hin, Hn. congruence.
    + intros ->. by apply Hin.
Qed.

Lemma mapping_range (x : Z) :
  0 ≤ x < 15 → ∃ j, mapping !! x = Some j ∧ 0 ≤ j < 6.
Proof.
  intros Hx.
  destruct (lookup_lt_is_Some_2 table (Z.to_nat x)) as [j Hj];
    [simpl; lia|].
  exists j. split; [apply mapping_table; split; [lia | done]|].
  apply list_elem_of_lookup_2 in Hj. revert Hj.
  unfold table. rewrite !elem_of_cons, elem_of_nil. lia.
Qed.

Lemma assign_returns orig (org : list Z) (newdisp : gmap Z D) x n :
  0 ≤ x < 15 → (6 ≤ length org)%nat →
  Forall (fun o => 1 - Z.of_nat (length orig) ≤ o ≤ Z.of_nat (length orig))
         org →
  ∃ newdisp', assign orig org newdisp (x, n) = Ok newdisp'.
Proof.
  intros Hx Hlen Hrange. unfold assign.
  destruct (newdisp !! n); [eauto|].
  destruct (mapping_range x Hx) as (j & Hj & Hj6).
  unfold dict_getitem. rewrite Hj. simpl.
  destruct (lookup_lt_is_Some_2 org (Z.to_nat j)) as [o Ho]; [lia|].
  assert (getitem org j = Ok o) as -> by (apply getitem_nonneg; [lia | done]).
  simpl. rewrite Forall_forall in Hrange.
  specialize (Hrange o (list_elem_of_lookup_2 _ _ _ Ho)).
  destruct (getitem orig (o - 1)) as [d|e] eqn:Hd; simpl; [eauto|].
  apply getitem_Raise in Hd as [_ Hd]. lia.
Qed.

(** X9. On well-formed records the function returns: when no record has
    more than 15 new nodes or fewer than 6 original nodes, and every
    original node id is within the range of the indices of [orig], no
    lookup fails. *)
Lemma new_displacements_returns orig expansion :
  Forall (well_formed (length orig)) expansion →
  ∃ out, new_displacements orig expansion = Ok out.
Proof.
  intros Hwf.
  assert (∀ m : gmap Z D, ∃ m', for_ (expand orig) m expansion = Ok m')
    as Hloop.
  { induction Hwf as [|e es (Hnew & Horg & Hrange) _ IH]; intros m;
      [by eexists|].
    simpl.
    assert (∃ m1, expand orig m e = Ok m1) as [m1 Hm1].
    { unfold expand.
      assert (Forall (fun xn : Z * Z => 0 ≤ xn.1 < 15)
                (enumerate (Expansion.new e))) as Hslots.
      { apply Forall_forall. intros [x n] Hin.
        apply list_elem_of_lookup in Hin as [k Hk].
        apply enumerate_lookup in Hk as [-> Hk].
        apply lookup_lt_Some in Hk. simpl. lia. }
      clear Hnew. revert m.
      induction Hslots as [|[x n] l Hx _ IHl]; intros m; [by eexists|].
      cbn [for_].
      destruct (assign_returns orig (Expansion.orig e) m x n Hx Horg Hrange)
        as [m' ->].
      apply IHl. }
    rewrite Hm1. simpl. apply IH. }
  destruct (Hloop ∅) as [m Hm].
  by apply (new_displacements_total _ _ m).
Qed.

(** C1. Whenever the loops meet a new-node id [n] for the first time, at
    slot [x] of a record [e], the result pairs [n] with the displacement
    [orig[o - 1]], where [o = e.orig[j]] and [j] is entry [x] of the fixed
    table of 15 entries, which is the content of [mapping]. The displacement
    is the very element of [orig]: for [1 <= o <= len(orig)] the one at
    offset [o - 1]. *)
Theorem new_displacements_copies orig expansion out i e x n :
  new_displacements orig expansion = Ok out →
  first_seen expansion i e x n →
  (∀ x' j', mapping !! x' = Some j' ↔
     0 ≤ x' ∧ [0; 1; 2; 0; 1; 2; 3; 4; 5; 3; 4; 5; 0; 1; 2] !! Z.to_nat x'
              = Some j')
  ∧ ∃ j o d,
      [0; 1; 2; 0; 1; 2; 3; 4; 5; 3; 4; 5; 0; 1; 2] !! x = Some j
      ∧ (x < 15)%nat
      ∧ Expansion.orig e !! Z.to_nat j = Some o
      ∧ getitem orig (o - 1) = Ok d
      ∧ (1 ≤ o ≤ Z.of_nat (length orig) → orig !! Z.to_nat (o - 1) = Some d)
      ∧ (n, d) ∈ out.
Proof.
  intros Hout Hfirst. split; [apply mapping_table|].
  destruct (first_seen_value _ _ _ _ _ _ _ Hout Hfirst)
    as (j & o & d & Hj & Ho & Hd & Hin).
  exists j, o, d. repeat split; try done.
  - by apply lookup_lt_Some in Hj.
  - intros [Ho1 _]. apply getitem_nonneg in Hd; [done | lia].
  - by apply Hin.
Qed.

(** C2. When two records hold the new-node id [K], the result has one
    displacement for [K]: the one derived from the slot where [K] is met
    first. The later record is not consulted: on an id that is already
    assigned, the loop body neither raises nor changes the dictionary,
    whatever the later record would imply. *)
Theorem first_seen_wins orig expansion out i1 i2 e1 e2 x1 x2 K :
  new_displacements orig expansion = Ok out →
  first_seen expansion i1 e1 x1 K →
  (i1 < i2)%nat → expansion !! i2 = Some e2 →
  Expansion.new e2 !! x2 = Some K →
  (∃ j o d, table !! x1 = Some j
            ∧ Expansion.orig e1 !! Z.to_nat j = Some o
            ∧ getitem orig (o - 1) = Ok d
            ∧ ∀ d', (K, d') ∈ out ↔ d' = d)
  ∧ ∀ newdisp : gmap Z D, is_Some (newdisp !! K) →
      assign orig (Expansion.orig e2) newdisp (Z.of_nat x2, K) = Ok newdisp.
Proof.
  intros Hout Hfirst _ _ _. split.
  - apply (first_seen_value _ _ _ _ _ _ _ Hout Hfirst).
  - intros newdisp [d Hd]. unfold assign. by rewrite Hd.
Qed.

(** C7. The result is sorted strictly ascending by node id, so no id occurs
    twice, and its ids are the new-node ids of the expansion records. *)
Theorem new_displacements_sorted orig expansion out :
  new_displacements orig expansion = Ok out →
  StronglySorted Z.lt out.*1
  ∧ NoDup out.*1
  ∧ ∀ n, n ∈ out.*1 ↔ ∃ e, e ∈ expansion ∧ n ∈ Expansion.new e.
Proof.
  intros Hout.
  apply new_displacements_Ok in Hout as (m & Hm & -> & _).
  split; [apply sorted_keys_lt|]. split; [apply sorted_keys_NoDup|].
  intros n. rewrite sorted_keys_elem_of, (outer_dom _ _ _ _ _ Hm).
  rewrite lookup_empty. split; [|auto].
  intros [[? ?]|?]; done.
Qed.

(** C10 (amended). For an id [id] supplied for a new node that is not yet
    assigned, the lookup [orig[id - 1]] gives the displacement of node [id]
    when [1 <= id <= len(orig)]; it wraps around, to offset
    [len(orig) + id - 1], when [1 - len(orig) <= id <= 0]; and it raises
    IndexError for every other id, above [len(orig)] or below
    [1 - len(orig)]. *)
Theorem lookup_wraps orig (org : list Z) (newdisp : gmap Z D) x n j id :
  newdisp !! n = None → mapping !! x = Some j → getitem org j = Ok id →
  (1 ≤ id ≤ Z.of_nat (length orig) →
   ∃ d, orig !! Z.to_nat (id - 1) = Some d
        ∧ assign orig org newdisp (x, n) = Ok (<[n := d]> newdisp))
  ∧ (1 - Z.of_nat (length orig) ≤ id ≤ 0 →
     ∃ d, orig !! Z.to_nat (Z.of_nat (length orig) + id - 1) = Some d
          ∧ assign orig org newdisp (x, n) = Ok (<[n := d]> newdisp))
  ∧ (id < 1 - Z.of_nat (length orig) ∨ Z.of_nat (length orig) < id →
     assign orig org newdisp (x, n) = Raise IndexError).
Proof.
  intros Hn Hj Hid. unfold assign, dict_getitem. rewrite Hn, Hj. simpl.
  rewrite Hid. simpl. repeat split.
  - intros Hrange.
    destruct (lookup_lt_is_Some_2 orig (Z.to_nat (id - 1))) as [d Hd]; [lia|].
    exists d. split; [done|].
    assert (getitem orig (id - 1) = Ok d) as ->; [|done].
    apply getitem_Ok. left. split; [lia | done].
  - intros Hrange.
    destruct (lookup_lt_is_Some_2 orig
                (Z.to_nat (Z.of_nat (length orig) + id - 1))) as [d Hd]; [lia|].
    exists d. split; [done|].
    assert (getitem orig (id - 1) = Ok d) as ->; [|done].
    apply getitem_Ok. right. split; [lia|]. split; [lia|].
    by replace (id - 1 + Z.of_nat (length orig))
      with (Z.of_nat (length orig) + id - 1) by lia.
  - intros Hrange.
    assert (getitem orig (id - 1) = Raise IndexError) as ->; [|done].
    apply getitem_Raise. split; [done | lia].
Qed.
End results.

Lemma new_displacements_copies_witness :
  new_displacements ex_orig [ex_e1; ex_e2] = Ok ex_out
  ∧ first_seen [ex_e1; ex_e2] 1 ex_e2 1 5
  ∧ ∃ j o d,
      [0; 1; 2; 0; 1; 2; 3; 4; 5; 3; 4; 5; 0; 1; 2] !! 1%nat = Some j
      ∧ (1 < 15)%nat
      ∧ Expansion.orig ex_e2 !! Z.to_nat j = Some o
      ∧ getitem ex_orig (o - 1) = Ok d
      ∧ (1 ≤ o ≤ Z.of_nat (length ex_orig) →
         ex_orig !! Z.to_nat (o - 1) = Some d)
      ∧ (5, d) ∈ ex_out.
Proof.
  assert (new_displacements ex_orig [ex_e1; ex_e2] = Ok ex_out) as H1
    by run.
  assert (first_seen [ex_e1; ex_e2] 1 ex_e2 1 5) as H2
    by decided.
  split; [exact H1|]. split; [exact H2|].
  apply (new_displacements_copies ex_orig [ex_e1; ex_e2] ex_out 1 ex_e2 1 5
           H1 H2).
Defined.

Lemma first_seen_wins_witness :
  new_displacements ex_orig [ex_e1; ex_e2] = Ok ex_out
  ∧ first_seen [ex_e1; ex_e2] 0 ex_e1 0 9
  ∧ Expansion.new ex_e2 !! 2%nat = Some 9
  ∧ Expansion.orig ex_e2 !! 2%nat = Some 3
  ∧ ∀ d', (9, d') ∈ ex_out ↔ d' = 100.
Proof.
  assert (new_displacements ex_orig [ex_e1; ex_e2] = Ok ex_out) as H1
    by run.
  assert (first_seen [ex_e1; ex_e2] 0 ex_e1 0 9) as H2
    by decided.
  split; [exact H1|]. split; [exact H2|]. do 2 (split; [reflexivity|]).
  destruct (first_seen_wins ex_orig [ex_e1; ex_e2] ex_out 0 1 ex_e1 ex_e2
              0 2 9 H1 H2 ltac:(lia) eq_refl eq_refl)
    as [(j & o & d & Hj & Ho & Hd & Hin) _].
  injection Hj as <-. injection Ho as <-. injection Hd as <-. exact Hin.
Defined.

Lemma new_displacements_sorted_witness :
  new_displacements ex_orig [ex_e1; ex_e2] = Ok ex_out
  ∧ StronglySorted Z.lt ex_out.*1
  ∧ NoDup ex_out.*1
  ∧ ∀ n, n ∈ ex_out.*1 ↔
         ∃ e, e ∈ [ex_e1; ex_e2] ∧ n ∈ Expansion.new e.
Proof.
  assert (new_displacements ex_orig [ex_e1; ex_e2] = Ok ex_out) as H1
    by run.
  split; [exact H1|].
  apply (new_displacements_sorted ex_orig [ex_e1; ex_e2] ex_out H1).
Defined.

Lemma lookup_wraps_witness :
  assign ex_orig [0; 2; 3; 1; 2; 3] ∅ (0, 9) = Ok {[ 9 := 300 ]}
  ∧ assign ex_orig [-2; 2; 3; 1; 2; 3] ∅ (0, 9) = Ok {[ 9 := 100 ]}
  ∧ assign ex_orig [-3; 2; 3; 1; 2; 3] ∅ (0, 9) = Raise IndexError
  ∧ assign ex_orig [4; 2; 3; 1; 2; 3] ∅ (0, 9) = Raise IndexError.
Proof.
  destruct (lookup_wraps ex_orig [0; 2; 3; 1; 2; 3] ∅ 0 9 0 0
              (lookup_empty _)
              ltac:(run) ltac:(run)) as (_ & Hzero & _).
  destruct (lookup_wraps ex_orig [-2; 2; 3; 1; 2; 3] ∅ 0 9 0 (-2)
              (lookup_empty _)
              ltac:(run) ltac:(run)) as (_ & Hwrap & _).
  destruct (lookup_wraps ex_orig [-3; 2; 3; 1; 2; 3] ∅ 0 9 0 (-3)
              (lookup_empty _)
              ltac:(run) ltac:(run)) as (_ & _ & Hlow).
  destruct (lookup_wraps ex_orig [4; 2; 3; 1; 2; 3] ∅ 0 9 0 4
              (lookup_empty _)
              ltac:(run) ltac:(run)) as (_ & _ & Hhigh).
  destruct Hzero as (d0 & Hd0 & ->); [simpl; lia|]. injection Hd0 as <-.
  destruct Hwrap as (d1 & Hd1 & ->); [simpl; lia|]. injection Hd1 as <-.
  rewrite Hlow by (simpl; lia). rewrite Hhigh by (simpl; lia).
  split; [reflexivity|]. split; [reflexivity|]. split; reflexivity.
Defined.

(** The id [-len(orig)] is negative and not smaller than [-len(orig)], and
    [id - 1] is below [len(orig)], yet the lookup raises IndexError; so
    does the id 0 when there is no original displacement at all. *)
Lemma lookup_wraps_counterexample :
  (- Z.of_nat (length ex_orig) ≤ -3 < 0
   ∧ ¬ Z.of_nat (length ex_orig) ≤ -3 - 1
   ∧ new_displacements ex_orig
       [Expansion.mk 1 [-3; -3; -3; -3; -3; -3] [9]] = Raise IndexError)
  ∧ new_displacements (@nil Z) [Expansion.mk 1 [0; 0; 0; 0; 0; 0] [9]]
    = Raise IndexError.
Proof.
  split; [split; [simpl; lia | split; [simpl; lia|]]|];
    vm_compute; reflexivity.
Qed.

(** ** Line numbers and slices *)

Section indices.
Context {A : Type} (p : A → bool).

Lemma numbered_cons k (a : A) l :
  numbered k (a :: l) = (Z.of_nat k, a) :: numbered (S k) l.
Proof.
  unfold numbered. rewrite imap_cons, Nat.add_0_r. f_equal.
  apply imap_ext. intros i x _. simpl. do 2 f_equal. lia.
Qed.

Lemma indices_from_skip k l1 l2 :
  Forall (fun a => p a = false) l1 →
  indices_from p k (l1 ++ l2) = indices_from p (k + length l1) l2.
Proof.
  intros Hl1. revert k. induction Hl1 as [|a l1 Ha _ IH]; intros k; simpl.
  - by rewrite Nat.add_0_r.
  - unfold indices_from in *. rewrite numbered_cons, filter_cons. simpl.
    rewrite decide_False by (by rewrite Ha).
    rewrite IH. do 3 f_equal. lia.
Qed.

Lemma indices_from_hit k a l :
  p a = true →
  indices_from p k (a :: l) = Z.of_nat k :: indices_from p (S k) l.
Proof.
  intros Ha. unfold indices_from. rewrite numbered_cons, filter_cons. simpl.
  by rewrite decide_True.
Qed.

Lemma indices_from_miss k l :
  Forall (fun a => p a = false) l → indices_from p k l = [].
Proof.
  intros Hl. rewrite <- (app_nil_r l), (indices_from_skip _ _ _ Hl).
  reflexivity.
Qed.

Lemma indices_from_sorted k l :
  StronglySorted Z.lt (indices_from p k l)
  ∧ Forall (fun i => Z.of_nat k ≤ i) (indices_from p k l).
Proof.
  revert k. induction l as [|a l IH]; intros k.
  - split; constructor.
  - destruct (IH (S k)) as [Hs Hge]. unfold indices_from in *.
    rewrite numbered_cons, filter_cons. simpl. case_decide; simpl.
    + split.
      * constructor; [done|]. eapply Forall_impl; [exact Hge|].
        simpl. intros; lia.
      * constructor; [lia|]. eapply Forall_impl; [exact Hge|].
        simpl. intros; lia.
    + split; [done|]. eapply Forall_impl; [exact Hge|]. simpl. intros; lia.
Qed.

Lemma indices_from_0 l : indices p l = indices_from p 0 l.
Proof. reflexivity. Qed.

Lemma first_line_indices l (i : nat) :
  first_line p l i →
  ∃ rest, indices p l = Z.of_nat i :: rest.
Proof.
  unfold first_line. intros [Hi Hbefore].
  destruct (l !! i) as [a|] eqn:Hl; [|done].
  rewrite <- (take_drop_middle _ _ _ Hl), indices_from_0.
  rewrite (indices_from_skip _ _ _ Hbefore), (indices_from_hit _ _ _ Hi). simpl.
  rewrite length_take_le by (apply lookup_lt_Some in Hl; lia). eauto.
Qed.

Lemma indices_elem_of l (i : Z) :
  i ∈ indices p l ↔
    0 ≤ i ∧ ∃ a, l !! Z.to_nat i = Some a ∧ p a = true.
Proof.
  unfold indices. rewrite list_elem_of_fmap. split.
  - intros ([k a] & -> & Hin). apply list_elem_of_filter in Hin as [Hp Hin].
    apply list_elem_of_lookup in Hin as [j Hj].
    apply enumerate_lookup in Hj as [-> Hj]. simpl in *.
    split; [lia|]. exists a. by rewrite Nat2Z.id.
  - intros (Hi & a & Ha & Hp). exists (i, a). split; [done|].
    apply list_elem_of_filter. split; [done|].
    apply list_elem_of_lookup. exists (Z.to_nat i).
    apply enumerate_lookup. split; [lia | done].
Qed.

Lemma indices_sorted l : StronglySorted Z.lt (indices p l).
Proof. rewrite indices_from_0. apply indices_from_sorted. Qed.
End indices.

Lemma first_line_getitem {A : Type} (p : A → bool) l (i : nat) :
  first_line p l i → getitem (indices p l) 0 = Ok (Z.of_nat i).
Proof.
  intros [rest ->]%first_line_indices. by apply getitem_nonneg.
Qed.

Lemma no_line_getitem {A : Type} (p : A → bool) l :
  Forall (fun a => p a = false) l →
  getitem (indices p l) 0 = Raise IndexError.
Proof. intros Hl. rewrite indices_from_0, indices_from_miss; done. Qed.

Lemma slice_inside {A : Type} (l : list A) (a b : Z) :
  0 ≤ a ≤ b → b ≤ Z.of_nat (length l) →
  slice l a b = take (Z.to_nat (b - a)) (drop (Z.to_nat a) l).
Proof.
  intros Hab Hb. unfold slice.
  destruct (Z.ltb_spec a 0); [lia|]. destruct (Z.ltb_spec b 0); [lia|].
  by rewrite !Z.min_l by lia.
Qed.

Lemma slice_to_inside {A : Type} (l : list A) (b : Z) :
  0 ≤ b ≤ Z.of_nat (length l) → slice_to l b = take (Z.to_nat b) l.
Proof.
  intros Hb. unfold slice_to. rewrite slice_inside by lia.
  by rewrite Z.sub_0_r.
Qed.

Lemma slice_from_inside {A : Type} (l : list A) (a : Z) :
  0 ≤ a ≤ Z.of_nat (length l) → slice_from l a = drop (Z.to_nat a) l.
Proof.
  intros Ha. unfold slice_from. rewrite slice_inside by lia.
  apply take_ge. rewrite length_drop. lia.
Qed.

(** ** Lines of a text *)

Lemma terminated_cons c ln :
  c ≠ newline → terminated ln → terminated (c :: ln).
Proof.
  intros Hc (body & -> & Hbody). exists (c :: body). split; [done|].
  rewrite not_elem_of_cons. split; [congruence | done].
Qed.

Lemma text_lines_cons ln lns :
  terminated ln → text_lines lns → text_lines (ln :: lns).
Proof. intros Hln Hlns. destruct lns; simpl; auto. Qed.

Lemma text_lines_readlines s : text_lines (readlines s).
Proof.
  induction s as [|c s IH]; simpl; [done|].
  destruct (N.eqb_spec c newline) as [->|Hc].
  - apply text_lines_cons; [|done].
    exists []. split; [done | apply not_elem_of_nil].
  - destruct (readlines s) as [|ln lns]; simpl.
    + right. split; [done|]. rewrite not_elem_of_cons, elem_of_nil.
      split; [congruence | tauto].
    + destruct lns as [|ln' lns].
      * destruct IH as [Hterm|[Hne Hnl]].
        -- left. by apply terminated_cons.
        -- right. split; [done|]. rewrite not_elem_of_cons.
           split; [congruence | done].
      * destruct IH as [Hterm Hrest]. split; [|done].
        by apply terminated_cons.
Qed.

Lemma readlines_terminated body rest :
  newline ∉ body →
  readlines (body ++ [newline] ++ rest) = (body ++ [newline]) :: readlines rest.
Proof.
  induction body as [|c body IH]; intros Hbody; simpl; [done|].
  apply not_elem_of_cons in Hbody as [Hc Hbody].
  destruct (N.eqb_spec c newline) as [->|_]; [done|].
  simpl in IH. by rewrite IH.
Qed.

Lemma readlines_last ln : ln ≠ [] → newline ∉ ln → readlines ln = [ln].
Proof.
  induction ln as [|c ln IH]; intros Hne Hnl; [done|]. simpl.
  apply not_elem_of_cons in Hnl as [Hc Hnl].
  destruct (N.eqb_spec c newline) as [->|_]; [done|].
  destruct ln as [|c' ln]; [done|]. by rewrite IH.
Qed.

Lemma readlines_concat lns : text_lines lns → readlines (concat lns) = lns.
Proof.
  induction lns as [|ln lns IH]; [done|]. intros Hlns.
  assert (terminated ln → text_lines lns →
          readlines (concat (ln :: lns)) = ln :: lns) as Hcons.
  { intros (body & -> & Hbody) Hrest. simpl.
    rewrite <- app_assoc, readlines_terminated by done.
    by rewrite IH. }
  destruct lns as [|ln' lns].
  - destruct Hlns as [Hterm|[Hne Hnl]]; [by apply Hcons|].
    simpl. rewrite app_nil_r. by apply readlines_last.
  - destruct Hlns as [Hterm Hrest]. by apply Hcons.
Qed.

Lemma text_lines_app l1 l2 :
  Forall terminated l1 → text_lines l2 → text_lines (l1 ++ l2).
Proof.
  induction 1 as [|ln l1 Hln _ IH]; intros Hl2; [done|].
  simpl. apply text_lines_cons; auto.
Qed.

Lemma text_lines_split l1 l2 :
  text_lines (l1 ++ l2) → l2 ≠ [] → Forall terminated l1 ∧ text_lines l2.
Proof.
  intros H Hl2. induction l1 as [|ln l1 IH]; [by split|].
  simpl in H. destruct (l1 ++ l2) as [|ln' rest] eqn:E.
  { by destruct l1, l2. }
  destruct H as [Hterm Hrest]. destruct (IH Hrest) as [? ?].
  split; [by constructor | done].
Qed.

(** ** Formatted numbers *)

Lemma visible_newline s : visible s → newline ∉ s.
Proof.
  intros Hs Hin. unfold visible in Hs. rewrite Forall_forall in Hs.
  specialize (Hs _ Hin). unfold newline in Hs. lia.
Qed.

Lemma digits_visible s : Forall is_digit s → visible s.
Proof.
  intros Hs. eapply Forall_impl; [exact Hs|]. unfold is_digit. intros; lia.
Qed.

Lemma uint_digits (d : Decimal.uint) :
  Forall is_digit (lit (NilEmpty.string_of_uint d)).
Proof.
  induction d; simpl; try constructor; try done;
    unfold is_digit; vm_compute; split; discriminate.
Qed.

Lemma str_of_int_digits (n : Z) : 0 ≤ n → Forall is_digit (str_of_int n).
Proof.
  intros Hn. unfold str_of_int. destruct n as [|p|p]; [| |lia].
  - repeat constructor; vm_compute; discriminate.
  - simpl. unfold NilZero.string_of_uint.
    destruct (Pos.to_uint p) eqn:E; try apply uint_digits.
    repeat constructor; vm_compute; discriminate.
Qed.

Lemma str_of_int_visible (n : Z) : visible (str_of_int n).
Proof.
  destruct (Z.le_gt_cases 0 n) as [Hn|Hn].
  { by apply digits_visible, str_of_int_digits. }
  destruct n as [|p|p]; [lia..|].
  unfold str_of_int. simpl. constructor; [vm_compute; discriminate|].
  apply digits_visible. unfold NilZero.string_of_uint.
  destruct (Pos.to_uint p) eqn:E; try apply uint_digits.
  repeat constructor; vm_compute; discriminate.
Qed.

Lemma str_of_int_length (n : Z) : (1 ≤ length (str_of_int n))%nat.
Proof.
  unfold str_of_int. destruct n as [|p|p]; simpl; [lia| |lia].
  unfold NilZero.string_of_uint.
  destruct (Pos.to_uint p) eqn:E; simpl; lia.
Qed.

Lemma str_of_int_length_10 (n : Z) :
  10 ≤ n → (2 ≤ length (str_of_int n))%nat.
Proof.
  intros Hn. destruct n as [|p|p]; [lia| |lia].
  unfold str_of_int. simpl. unfold NilZero.string_of_uint.
  pose proof (Unsigned.of_to p) as Hp.
  destruct (Pos.to_uint p) as [|u|u|u|u|u|u|u|u|u|u] eqn:E.
  all: try (simpl in Hp; discriminate).
  all: destruct u; simpl; try lia.
  all: simpl in Hp; first [discriminate | injection Hp as Hp; lia].
Qed.

Lemma digit_is_digit (d : Z) : is_digit (digit d).
Proof.
  unfold is_digit, digit. pose proof (Z.mod_pos_bound d 10). lia.
Qed.

Lemma sci_text_scientific (sign : N) (d k : Z) :
  sign = 32%N ∨ sign = 45%N → scientific (sign :: sci_text d k).
Proof.
  intros Hsign. unfold scientific, sci_text.
  exists sign, (digit (d / 100000)),
    [digit (d / 10000); digit (d / 1000); digit (d / 100); digit (d / 10);
     digit d],
    (if k <? 0 then 45%N else 43%N),
    ((if Z.abs k <? 10 then [48%N] else []) ++ str_of_int (Z.abs k)).
  split; [done|]. split; [done|]. split; [apply digit_is_digit|].
  split; [done|]. split; [repeat constructor; apply digit_is_digit|].
  split; [destruct (k <? 0); auto|].
  pose proof (str_of_int_length (Z.abs k)) as Hlen.
  pose proof (str_of_int_digits (Z.abs k) ltac:(lia)) as Hdig.
  destruct (Z.ltb_spec (Z.abs k) 10) as [Hk|Hk]; simpl.
  - split; [lia|]. constructor; [|done]. unfold is_digit. lia.
  - split; [by apply str_of_int_length_10 | done].
Qed.

Lemma scientific_length s : scientific s → (12 ≤ length s)%nat.
Proof.
  intros (sign & d0 & frac & esign & ex & -> & _ & _ & Hfrac & _ & _ & Hex & _).
  simpl. rewrite length_app. simpl. lia.
Qed.

Lemma scientific_visible s : scientific s → visible s.
Proof.
  intros (sign & d0 & frac & esign & ex & -> & Hs & Hd0 & _ & Hfrac & He
          & _ & Hex).
  unfold visible, is_digit in *. constructor; [lia|]. constructor; [lia|].
  constructor; [lia|]. apply Forall_app. split; [by apply digits_visible|].
  constructor; [lia|]. constructor; [lia|]. by apply digits_visible.
Qed.

Lemma rjust_short (width : nat) (s : str) :
  (width ≤ length s)%nat → rjust width s = s.
Proof.
  intros Hlen. unfold rjust.
  by replace (width - length s)%nat with 0%nat by lia.
Qed.

Lemma rjust_length (width : nat) (s : str) :
  length (rjust width s) = (width `max` length s)%nat.
Proof. unfold rjust. rewrite length_app, length_replicate. lia. Qed.

Lemma rjust_visible (width : nat) (s : str) :
  visible s → visible (rjust width s).
Proof.
  intros Hs. unfold rjust, visible. apply Forall_app. split; [|done].
  apply Forall_replicate. lia.
Qed.

Lemma format_E_finite (x : spec_float) : finite x → scientific (format_E x).
Proof.
  intros Hx. unfold format_E.
  assert (∀ s, scientific s → scientific (rjust 11 s)) as Hjust.
  { intros s Hs. rewrite rjust_short; [done|].
    apply scientific_length in Hs. lia. }
  destruct x as [sg|sg| |sg m e]; try done; apply Hjust.
  - apply sci_text_scientific. destruct sg; auto.
  - destruct (sci6 m e) as [d k]. apply sci_text_scientific.
    destruct sg; auto.
Qed.

Lemma format_E_visible (x : spec_float) : visible (format_E x).
Proof.
  destruct x as [sg|sg| |sg m e];
    try (apply scientific_visible, format_E_finite; done).
  - destruct sg; vm_compute; repeat constructor; discriminate.
  - vm_compute; repeat constructor; discriminate.
Qed.

(** ** splice *)

Lemma record_terminated node dx dy dz : terminated (record node dx dy dz).
Proof.
  unfold record.
  exists (lit " -1" ++ rjust 10 (str_of_int node)
          ++ format_E dx ++ format_E dy ++ format_E dz).
  split; [by rewrite <- !app_assoc|].
  apply visible_newline. unfold visible. rewrite !Forall_app.
  split; [vm_compute; repeat constructor; discriminate|].
  split; [apply rjust_visible, str_of_int_visible|].
  split; [apply format_E_visible|].
  split; apply format_E_visible.
Qed.

Lemma splice_append_Ok new acc out :
  for_ splice_append acc new = Ok out →
  ∃ recs, out = acc ++ recs ∧ Forall2 is_record new recs.
Proof.
  revert acc. induction new as [|[node d] new IH]; intros acc; simpl.
  - intros [= <-]. exists []. by rewrite app_nil_r.
  - rewrite bind_Ok. intros (acc' & Hstep & Hrest).
    destruct d as [|dx [|dy [|dz [|? ?]]]]; try done.
    injection Hstep as <-. destruct (IH _ Hrest) as (recs & -> & Hrecs).
    exists (record node dx dy dz :: recs). split; [by rewrite <- app_assoc|].
    constructor; [|done]. by exists dx, dy, dz.
Qed.

Lemma splice_append_total new acc :
  Forall (fun nd : Z * list spec_float => length nd.2 = 3%nat) new →
  ∃ out, for_ splice_append acc new = Ok out.
Proof.
  intros Hnew. revert acc.
  induction Hnew as [|[node d] new Hd _ IH]; intros acc; simpl; [eauto|].
  destruct d as [|dx [|dy [|dz [|? ?]]]]; try done. simpl. apply IH.
Qed.

Lemma frd_path_ne base : base ++ lit ".frd" ≠ base ++ lit "-post.frd".
Proof. intros H. apply app_inv_head in H. discriminate. Qed.

(** C3. With the first line that holds "DISP" at index [i], the anchor is
    index [i + 5]; when the line there, stripped, does not start with "-3",
    [splice] raises the ValueError whose text is "wrong offset: " and the
    anchor index. So far it has only opened the .frd file for reading: no
    file is opened for writing and no file has changed. *)
Theorem splice_wrong_offset base new w text (i : nat) ln :
  files w !! (base ++ lit ".frd") = Some text →
  first_line (contains (lit "DISP")) (readlines text) i →
  readlines text !! (i + 5)%nat = Some ln →
  startswith (strip ln) (lit "-3") = false →
  splice base new w =
    (Raise (ValueError (lit "wrong offset: " ++ str_of_int (Z.of_nat i + 5))),
     World (files w) (events w ++ [OpenRead (base ++ lit ".frd")])).
Proof.
  intros Hfile Hdisp Hln Hcheck.
  unfold splice, mbind, io_bind, open_readlines. rewrite Hfile.
  unfold lift. rewrite (first_line_getitem _ _ _ Hdisp).
  assert (getitem (readlines text) (Z.of_nat i + 5) = Ok ln) as ->.
  { apply getitem_nonneg; [lia|].
    by replace (Z.to_nat (Z.of_nat i + 5)) with (i + 5)%nat by lia. }
  by rewrite Hcheck.
Qed.

(** C4. When the check of the anchor line passes and every pair holds
    three components, [splice] writes to <base>-post.frd the lines of
    <base>.frd before the anchor, one formatted record per pair, and the
    lines from the anchor on. Read back, the file has exactly these lines:
    as many as the original plus the number of pairs. The .frd file and
    every other file are as they were. *)
Theorem splice_inserts base new w text (i : nat) ln :
  files w !! (base ++ lit ".frd") = Some text →
  first_line (contains (lit "DISP")) (readlines text) i →
  readlines text !! (i + 5)%nat = Some ln →
  startswith (strip ln) (lit "-3") = true →
  Forall (fun nd : Z * list spec_float => length nd.2 = 3%nat) new →
  ∃ recs w',
    splice base new w = (Ok (), w')
    ∧ Forall2 is_record new recs
    ∧ files w' =
        <[base ++ lit "-post.frd" :=
            concat (take (i + 5) (readlines text) ++ recs
                    ++ drop (i + 5) (readlines text))]> (files w)
    ∧ events w' = events w ++ [OpenRead (base ++ lit ".frd");
                               OpenWrite (base ++ lit "-post.frd")]
    ∧ (∃ written,
         files w' !! (base ++ lit "-post.frd") = Some written
         ∧ readlines written =
             take (i + 5) (readlines text) ++ recs
             ++ drop (i + 5) (readlines text)
         ∧ length (readlines written)
           = (length (readlines text) + length new)%nat)
    ∧ files w' !! (base ++ lit ".frd") = Some text
    ∧ ∀ path, path ≠ base ++ lit "-post.frd" →
              files w' !! path = files w !! path.
Proof.
  intros Hfile Hdisp Hln Hcheck Hnew.
  destruct (splice_append_total new [] Hnew) as [out Hout].
  destruct (splice_append_Ok _ _ _ Hout) as (recs & -> & Hrecs).
  simpl in Hout. pose proof (lookup_lt_Some _ _ _ Hln) as Hlen.
  eexists recs, _. split.
  { unfold splice, mbind, io_bind, open_readlines. rewrite Hfile.
    unfold lift. rewrite (first_line_getitem _ _ _ Hdisp).
    assert (getitem (readlines text) (Z.of_nat i + 5) = Ok ln) as ->.
    { apply getitem_nonneg; [lia|].
      by replace (Z.to_nat (Z.of_nat i + 5)) with (i + 5)%nat by lia. }
    rewrite Hcheck. simpl. rewrite Hout.
    rewrite slice_to_inside, slice_from_inside by lia.
    replace (Z.to_nat (Z.of_nat i + 5)) with (i + 5)%nat by lia.
    unfold open_writelines. reflexivity. }
  simpl. split; [done|]. split; [done|].
  split; [by rewrite <- app_assoc|].
  assert (readlines (concat (take (i + 5) (readlines text) ++ recs
                             ++ drop (i + 5) (readlines text)))
          = take (i + 5) (readlines text) ++ recs
            ++ drop (i + 5) (readlines text)) as Hback.
  { apply readlines_concat.
    pose proof (text_lines_readlines text) as Hlines.
    rewrite <- (take_drop (i + 5) (readlines text)) in Hlines at 1.
    apply text_lines_split in Hlines as [Hbefore Hafter].
    2: { intros Hnil. apply (f_equal length) in Hnil.
         rewrite length_drop in Hnil. simpl in Hnil. lia. }
    rewrite app_assoc. apply text_lines_app; [|done].
    apply Forall_app. split; [done|].
    clear -Hrecs. induction Hrecs as [|nd rec ? ? Hrec _ IH]; constructor;
      [|done].
    destruct Hrec as (dx & dy & dz & _ & ->). apply record_terminated. }
  split.
  { eexists. split; [apply lookup_insert_eq|]. split; [exact Hback|].
    rewrite Hback, !length_app, length_take, length_drop.
    apply Forall2_length in Hrecs. lia. }
  split.
  { rewrite lookup_insert_ne; [done|]. apply not_eq_sym, frd_path_ne. }
  intros path Hpath. by rewrite lookup_insert_ne.
Qed.

(** C8 (amended). Every line that [splice] formats is " -1", the node id
    right-justified with spaces in at least 10 columns, the three
    components formatted one after the other, and a newline. A finite
    component is in signed scientific notation with five digits after the
    point, at least 12 characters long, so the minimum width of 11 never
    pads it. A NaN or an infinity is written as NAN, INF or -INF,
    right-justified in 11 columns. *)
Theorem record_format new recs :
  for_ splice_append [] new = Ok recs →
  Forall2
    (fun nd line =>
       ∃ dx dy dz pad,
         nd.2 = [dx; dy; dz]
         ∧ line = lit " -1" ++ (pad ++ str_of_int nd.1)
                  ++ format_E dx ++ format_E dy ++ format_E dz ++ [newline]
         ∧ Forall (fun c => c = 32%N) pad
         ∧ length (pad ++ str_of_int nd.1)
           = (10 `max` length (str_of_int nd.1))%nat)
    new recs
  ∧ (∀ x, finite x →
          scientific (format_E x) ∧ (12 ≤ length (format_E x))%nat)
  ∧ format_E S754_nan = lit "        NAN"
  ∧ format_E (S754_infinity false) = lit "        INF"
  ∧ format_E (S754_infinity true) = lit "       -INF".
Proof.
  intros Hrecs. split.
  - apply splice_append_Ok in Hrecs as (recs' & -> & Hrecs). simpl.
    eapply Forall2_impl; [exact Hrecs|].
    intros [node d] line (dx & dy & dz & Hd & ->). simpl in *.
    exists dx, dy, dz, (replicate (10 - length (str_of_int node)) 32%N).
    split; [done|]. split; [done|]. split; [by apply Forall_replicate|].
    apply rjust_length.
  - split; [|by vm_compute].
    intros x Hx. pose proof (format_E_finite x Hx) as Hsci.
    split; [done | by apply scientific_length].
Qed.

Lemma record_format_witness :
  for_ splice_append [] [(42, [S754_finite false 5 (-2); S754_zero true;
                               S754_finite true 1 10])]
  = Ok [lit " -1        42 1.25000E+00-0.00000E+00-1.02400E+03" ++ [newline]]
  ∧ scientific (format_E (S754_finite true 1 10)).
Proof.
  assert (for_ splice_append []
            [(42, [S754_finite false 5 (-2); S754_zero true;
                   S754_finite true 1 10])]
          = Ok [lit " -1        42 1.25000E+00-0.00000E+00-1.02400E+03"
                ++ [newline]]) as H by run.
  split; [exact H|].
  destruct (record_format _ _ H) as (_ & Hfinite & _).
  apply Hfinite. exact I.
Defined.

(** A NaN read from the .dat file is written as "NAN" behind eight spaces:
    no digits, no point, no exponent. *)
Lemma record_format_counterexample :
  for_ splice_append []
    [(1, [S754_nan; S754_zero false; S754_zero false])]
  = Ok [lit " -1         1        NAN 0.00000E+00 0.00000E+00" ++ [newline]]
  ∧ format_E S754_nan = lit "        NAN"
  ∧ ¬ scientific (format_E S754_nan).
Proof.
  split; [vm_compute; reflexivity|]. split; [vm_compute; reflexivity|].
  intros (sign & d0 & frac & esign & ex & Heq & _).
  vm_compute in Heq. discriminate.
Qed.

(** ** The readers *)

Lemma getitem_insert_ne {A : Type} (l : list A) (j : nat) (a : A) (k : Z) :
  0 ≤ k → Z.to_nat k ≠ j → getitem (<[j := a]> l) k = getitem l k.
Proof.
  intros Hk Hne. unfold getitem. rewrite length_insert.
  destruct (Z.ltb_spec k 0); [lia|].
  by rewrite list_lookup_insert_ne.
Qed.

Section readers.
Variable py_float : str → option spec_float.
Variable py_int : str → option Z.

Lemma data_line_comprehension ln t :
  data_line py_float ln = Some t →
  comprehension (float py_float) (slice_from (split ln) 1) = Ok t
  ∧ length t = 3%nat.
Proof.
  unfold data_line.
  destruct (split ln) as [|t0 [|tx [|ty [|tz [|? ?]]]]]; try done.
  intros H. assert (slice_from [t0; tx; ty; tz] 1 = [tx; ty; tz]) as ->
    by reflexivity.
  simpl. unfold float.
  destruct (py_float tx) as [x|]; [|done].
  destruct (py_float ty) as [y|]; [|done].
  destruct (py_float tz) as [z|]; [|done].
  simpl in *. by injection H as <-.
Qed.

Lemma block_comprehension block :
  Forall (fun ln => is_Some (data_line py_float ln)) block →
  ∃ disp,
    comprehension
      (fun ln => comprehension (float py_float) (slice_from (split ln) 1))
      block = Ok disp
    ∧ Forall2 (fun ln t => data_line py_float ln = Some t) block disp
    ∧ Forall (fun t => length t = 3%nat) disp.
Proof.
  induction 1 as [|ln block [t Ht] _ (disp & Hdisp & Hall & Hlen)].
  - exists []. repeat split; constructor.
  - destruct (data_line_comprehension _ _ Ht) as [Hc Ht3].
    exists (t :: disp). simpl. rewrite Hc. simpl. rewrite Hdisp.
    repeat split; by constructor.
Qed.

(** C5. In a .dat file whose first "displacements" line is line [d] and
    whose first "energy" line is line [e], the data lines are the lines
    from [d + 2] up to but not including [e + 2 - 3]. When each of them
    holds four tokens of which the last three are floats,
    [read_displacements] returns one tuple per data line, in the order of
    the file: the three floats of the line. *)
Theorem read_displacements_block base w text (d e : nat) :
  files w !! (base ++ lit ".dat") = Some text →
  first_line (contains (lit "displacements")) (strip <$> readlines text) d →
  first_line (contains (lit "energy")) (strip <$> readlines text) e →
  (d + 2 ≤ e + 2 - 3)%nat →
  Forall (fun ln => is_Some (data_line py_float ln))
         (take (e + 2 - 3 - (d + 2)) (drop (d + 2) (strip <$> readlines text))) →
  ∃ disp,
    read_displacements py_float base w
    = (Ok disp, World (files w) (events w ++ [OpenRead (base ++ lit ".dat")]))
    ∧ length disp = (e + 2 - 3 - (d + 2))%nat
    ∧ Forall2 (fun ln t => data_line py_float ln = Some t)
        (take (e + 2 - 3 - (d + 2)) (drop (d + 2) (strip <$> readlines text)))
        disp
    ∧ Forall (fun t => length t = 3%nat) disp.
Proof.
  intros Hfile Hd He Horder Hblock.
  destruct (block_comprehension _ Hblock) as (disp & Hdisp & Hall & Hlen).
  exists disp. split; [|split; [|done]].
  - unfold read_displacements, mbind, io_bind, open_readlines.
    rewrite Hfile. unfold lift.
    rewrite (first_line_getitem _ _ _ He). simpl.
    rewrite (first_line_getitem _ _ _ Hd). simpl.
    assert (e < length (strip <$> readlines text))%nat as Hlen_e.
    { destruct He as [He _].
      destruct ((strip <$> readlines text) !! e) eqn:E; [|done].
      by apply lookup_lt_Some in E. }
    rewrite slice_inside by lia.
    replace (Z.to_nat (Z.of_nat e + 2 - 3 - (Z.of_nat d + 2)))
      with (e + 2 - 3 - (d + 2))%nat by lia.
    replace (Z.to_nat (Z.of_nat d + 2)) with (d + 2)%nat by lia.
    by rewrite Hdisp.
  - apply Forall2_length in Hall. rewrite <- Hall.
    rewrite length_take, length_drop.
    destruct He as [He _].
    destruct ((strip <$> readlines text) !! e) eqn:E; [|done].
    apply lookup_lt_Some in E. lia.
Qed.

Lemma ints_comprehension ln zs :
  ints py_int ln = Some zs → comprehension (int py_int) (split ln) = Ok zs.
Proof.
  unfold ints. rewrite mapM_Some, comprehension_Ok.
  intros H. eapply Forall2_impl; [exact H|].
  intros tok z Hz. unfold int. by rewrite Hz.
Qed.

Lemma element_at_read lines rv (i : nat) r :
  element_at py_int lines i = Some r →
  read_element py_int lines rv (Z.of_nat i) = Ok (rv ++ [r]).
Proof.
  unfold element_at, read_element. intros H.
  destruct (lines !! i) as [ln|] eqn:Hln; [|done]. simpl in H.
  destruct (split ln !! 1%nat) as [tok|] eqn:Htok; [|done]. simpl in H.
  destruct (py_int tok) as [element|] eqn:Hel; [|done]. simpl in H.
  destruct (lines !! (i + 1)%nat) as [ln1|] eqn:Hln1; [|done]. simpl in H.
  destruct (ints py_int ln1) as [orig|] eqn:Horig; [|done]. simpl in H.
  destruct (lines !! (i + 3)%nat) as [ln3|] eqn:Hln3; [|done]. simpl in H.
  destruct (ints py_int ln3) as [new3|] eqn:Hnew3; [|done]. simpl in H.
  destruct (lines !! (i + 4)%nat) as [ln4|] eqn:Hln4; [|done]. simpl in H.
  destruct (ints py_int ln4) as [new4|] eqn:Hnew4; [|done]. simpl in H.
  injection H as <-.
  assert (∀ (k : nat) (kz : Z) l,
            kz = Z.of_nat k → lines !! (i + k)%nat = Some l →
            getitem lines (Z.of_nat i + kz) = Ok l) as Hget.
  { intros k kz l -> Hl. apply getitem_nonneg; [lia|].
    by replace (Z.to_nat (Z.of_nat i + Z.of_nat k)) with (i + k)%nat by lia. }
  assert (getitem lines (Z.of_nat i) = Ok ln) as ->.
  { apply getitem_nonneg; [lia|]. by rewrite Nat2Z.id. }
  simpl.
  assert (getitem (split ln) 1 = Ok tok) as -> by by apply getitem_nonneg.
  simpl.
  assert (int py_int tok = Ok element) as -> by (unfold int; by rewrite Hel).
  simpl.
  rewrite (Hget 1%nat 1 ln1 eq_refl Hln1). simpl.
  rewrite (ints_comprehension _ _ Horig). simpl.
  rewrite (Hget 3%nat 3 ln3 eq_refl Hln3). simpl.
  rewrite (ints_comprehension _ _ Hnew3). simpl.
  rewrite (Hget 4%nat 4 ln4 eq_refl Hln4). simpl.
  by rewrite (ints_comprehension _ _ Hnew4).
Qed.

Lemma read_elements lines (markers : list nat) rv :
  Forall (valid_element py_int lines) markers →
  ∃ recs,
    for_ (read_element py_int lines) rv (Z.of_nat <$> markers)
    = Ok (rv ++ recs)
    ∧ Forall2 (fun i r => element_at py_int lines i = Some r
                          ∧ length (Expansion.orig r) = 6%nat
                          ∧ length (Expansion.new r) = 15%nat)
        markers recs.
Proof.
  intros Hvalid. revert rv.
  induction Hvalid as [|i markers Hi _ IH]; intros rv.
  - exists []. split; [by rewrite app_nil_r | constructor].
  - unfold valid_element in Hi.
    destruct (element_at py_int lines i) as [r|] eqn:Hr; [|done].
    destruct (IH (rv ++ [r])) as (recs & Hrecs & Hall).
    exists (r :: recs). split.
    + rewrite fmap_cons. simpl. rewrite (element_at_read _ _ _ _ Hr). simpl.
      by rewrite Hrecs, <- app_assoc.
    + constructor; [by rewrite Hr | done].
Qed.

Lemma valid_12d_marker lines (i : nat) ln :
  valid_12d py_int lines → lines !! i = Some ln →
  startswith ln (lit "ELEMENT") = true → valid_element py_int lines i.
Proof.
  unfold valid_12d. rewrite Forall_forall. intros Hvalid Hln Hstart.
  apply (Hvalid (i, ln)); [|done].
  apply list_elem_of_lookup. exists i. rewrite list_lookup_imap.
  by rewrite Hln.
Qed.

(** C6. For a valid .12d file, [read_expansion] returns one record per
    line that starts with "ELEMENT", in the order of the file. The record
    of marker line [i] has as id the second token of line [i], as [orig]
    the integers of line [i + 1] (6 of them) and as [new] the integers of
    line [i + 3] followed by those of line [i + 4] (15 in all). Line
    [i + 2] is not read: any text in its place gives the same record. *)
Theorem read_expansion_records base w text :
  files w !! (base ++ lit ".12d") = Some text →
  valid_12d py_int (strip <$> readlines text) →
  ∃ recs markers,
    read_expansion py_int base w
    = (Ok recs, World (files w) (events w ++ [OpenRead (base ++ lit ".12d")]))
    ∧ StronglySorted lt markers
    ∧ (∀ i, i ∈ markers ↔
            ∃ ln, (strip <$> readlines text) !! i = Some ln
                  ∧ startswith ln (lit "ELEMENT") = true)
    ∧ Forall2 (fun i r =>
                 element_at py_int (strip <$> readlines text) i = Some r
                 ∧ length (Expansion.orig r) = 6%nat
                 ∧ length (Expansion.new r) = 15%nat)
        markers recs
    ∧ ∀ (i : nat) skipped rv,
        read_element py_int (<[(i + 2)%nat := skipped]> (strip <$> readlines text))
          rv (Z.of_nat i)
        = read_element py_int (strip <$> readlines text) rv (Z.of_nat i).
Proof.
  intros Hfile Hvalid.
  set (lines := strip <$> readlines text) in *.
  set (idx := indices (fun ln => startswith ln (lit "ELEMENT")) lines).
  assert (idx = Z.of_nat <$> (Z.to_nat <$> idx)) as Hidx.
  { rewrite <- list_fmap_compose. symmetry. rewrite <- (list_fmap_id idx) at 2.
    apply list_fmap_ext. intros k i Hi. simpl.
    apply list_elem_of_lookup_2, indices_elem_of in Hi. lia. }
  assert (∀ i : nat, i ∈ Z.to_nat <$> idx ↔
            ∃ ln, lines !! i = Some ln
                  ∧ startswith ln (lit "ELEMENT") = true) as Hmarkers.
  { intros i. rewrite list_elem_of_fmap. split.
    - intros (k & -> & Hk). by apply indices_elem_of in Hk as [_ ?].
    - intros (ln & Hln & Hstart). exists (Z.of_nat i).
      split; [lia|]. apply indices_elem_of. split; [lia|].
      exists ln. by rewrite Nat2Z.id. }
  destruct (read_elements lines (Z.to_nat <$> idx) []) as (recs & Hrecs & Hall).
  { apply Forall_forall. intros i Hi.
    apply Hmarkers in Hi as (ln & Hln & Hstart).
    by apply (valid_12d_marker _ _ ln). }
  exists recs, (Z.to_nat <$> idx). split; [|split; [|split; [|split]]].
  - unfold read_expansion, mbind, io_bind, open_readlines.
    rewrite Hfile. unfold lift. fold lines. fold idx.
    by rewrite Hidx, Hrecs.
  - pose proof (indices_sorted (fun ln => startswith ln (lit "ELEMENT")) lines)
      as Hsorted. fold idx in Hsorted.
    assert (Forall (fun i => 0 ≤ i) idx) as Hpos.
    { apply Forall_forall. intros i Hi. by apply indices_elem_of in Hi as [? _]. }
    clear -Hsorted Hpos.
    induction Hsorted as [|i idx _ IH Hlt]; [constructor|].
    apply Forall_cons in Hpos as [Hi Hpos]. rewrite fmap_cons.
    constructor; [by apply IH|].
    apply Forall_fmap, Forall_forall. intros k Hk. simpl.
    rewrite Forall_forall in Hlt, Hpos.
    specialize (Hlt k Hk). specialize (Hpos k Hk). lia.
  - exact Hmarkers.
  - exact Hall.
  - intros i skipped rv. unfold read_element.
    rewrite !getitem_insert_ne by lia. reflexivity.
Qed.
End readers.

(** ** main *)

Create HintDb no_exit.

Lemma no_exit_Ok {A : Type} (a : A) : ¬ exits (Ok a).
Proof. by intros [c ?]. Qed.

Lemma no_exit_bind {A B : Type} (r : result A) (f : A → result B) :
  ¬ exits r → (∀ a, ¬ exits (f a)) → ¬ exits (r ≫= f).
Proof.
  intros Hr Hf. destruct r as [a|e]; simpl; [apply Hf|].
  intros [c [= ->]]. apply Hr. by exists c.
Qed.

Lemma no_exit_getitem {A : Type} (l : list A) (i : Z) : ¬ exits (getitem l i).
Proof. intros [c Hc]. by apply getitem_Raise in Hc as [? _]. Qed.

Lemma no_exit_dict_getitem {V : Type} (d : gmap Z V) (k : Z) :
  ¬ exits (dict_getitem d k).
Proof. unfold dict_getitem. destruct (d !! k); by intros [c ?]. Qed.

Lemma no_exit_for {A S : Type} (body : S → A → result S) s l :
  (∀ s a, ¬ exits (body s a)) → ¬ exits (for_ body s l).
Proof.
  intros Hbody. revert s. induction l as [|a l IH]; intros s; simpl.
  - apply no_exit_Ok.
  - apply no_exit_bind; auto.
Qed.

Lemma no_exit_comprehension {A B : Type} (f : A → result B) l :
  (∀ a, ¬ exits (f a)) → ¬ exits (comprehension f l).
Proof.
  intros Hf. induction l as [|a l IH]; simpl; [apply no_exit_Ok|].
  apply no_exit_bind; [done|]. intros b.
  apply no_exit_bind; [done|]. intros bs. apply no_exit_Ok.
Qed.

Lemma no_exit_float py_float s : ¬ exits (float py_float s).
Proof. unfold float. destruct (py_float s); by intros [c ?]. Qed.

Lemma no_exit_int py_int s : ¬ exits (int py_int s).
Proof. unfold int. destruct (py_int s); by intros [c ?]. Qed.

#[local] Hint Resolve no_exit_Ok no_exit_getitem no_exit_dict_getitem
  no_exit_float no_exit_int : no_exit.

Ltac no_exit :=
  repeat first
    [ progress auto with no_exit
    | apply no_exit_bind; [|intros ?]
    | apply no_exit_for; intros ? ?
    | apply no_exit_comprehension; intros ? ].

Lemma no_exit_assign {D : Type} (orig : list D) org newdisp xn :
  ¬ exits (assign orig org newdisp xn).
Proof.
  destruct xn as [x n]. unfold assign. destruct (newdisp !! n); no_exit.
Qed.

Lemma no_exit_new_displacements {D : Type} (orig : list D) expansion :
  ¬ exits (new_displacements orig expansion).
Proof.
  unfold new_displacements, expand. no_exit. apply no_exit_assign.
Qed.

Lemma no_exit_splice_append acc nd : ¬ exits (splice_append acc nd).
Proof.
  unfold splice_append.
  destruct nd as [node [|dx [|dy [|dz [|? ?]]]]]; by intros [c ?].
Qed.

Lemma io_no_exit_bind {A B : Type} (m : io A) (f : A → io B) w :
  ¬ exits (m w).1 → (∀ a w', ¬ exits (f a w').1) → ¬ exits ((m ≫= f) w).1.
Proof.
  intros Hm Hf. unfold mbind, io_bind. destruct (m w) as [[a|e] w'].
  - apply Hf.
  - simpl in *. intros [c [= ->]]. apply Hm. by exists c.
Qed.

Lemma no_exit_open_readlines path w : ¬ exits (open_readlines path w).1.
Proof.
  unfold open_readlines. destruct (files w !! path); by intros [c ?].
Qed.

Section main.
Variable py_float : str → option spec_float.
Variable py_int : str → option Z.

Lemma no_exit_read_displacements base w :
  ¬ exits (read_displacements py_float base w).1.
Proof.
  unfold read_displacements.
  apply io_no_exit_bind; [apply no_exit_open_readlines|].
  intros raw w'. unfold lift. simpl. no_exit.
Qed.

Lemma no_exit_read_expansion base w :
  ¬ exits (read_expansion py_int base w).1.
Proof.
  unfold read_expansion.
  apply io_no_exit_bind; [apply no_exit_open_readlines|].
  intros raw w'. unfold lift. simpl. no_exit.
Qed.

Lemma no_exit_splice base new w : ¬ exits (splice base new w).1.
Proof.
  unfold splice.
  apply io_no_exit_bind; [apply no_exit_open_readlines|]. intros lines w1.
  apply io_no_exit_bind; [apply no_exit_getitem|]. intros i w2.
  apply io_no_exit_bind; [apply no_exit_getitem|]. intros ln w3.
  apply io_no_exit_bind.
  { destruct (negb _); by intros [c ?]. }
  intros _ w4. apply io_no_exit_bind.
  { unfold lift. simpl. no_exit. apply no_exit_splice_append. }
  intros recs w5. apply no_exit_Ok.
Qed.

Lemma no_exit_pipeline base w : ¬ exits (pipeline py_float py_int base w).1.
Proof.
  unfold pipeline.
  apply io_no_exit_bind; [apply no_exit_read_displacements|]. intros ? ?.
  apply io_no_exit_bind; [apply no_exit_read_expansion|]. intros ? ?.
  apply io_no_exit_bind; [apply no_exit_new_displacements|]. intros ? ?.
  apply no_exit_splice.
Qed.

Lemma splice_written base new w w' :
  splice base new w = (Ok (), w') →
  is_Some (files w' !! (base ++ lit "-post.frd")).
Proof.
  unfold splice, mbind, io_bind, lift, open_writelines.
  destruct (open_readlines _ w) as [[lines|?] w1]; [|done].
  destruct (getitem (indices _ lines) 0) as [i|?]; [|done].
  destruct (getitem lines (i + 5)) as [ln|?]; [|done].
  destruct (negb _); [done|]. simpl.
  destruct (for_ splice_append [] new) as [recs|?]; [|done].
  intros [= <-]. simpl. rewrite lookup_insert_eq. eauto.
Qed.

Lemma pipeline_written base w w' :
  pipeline py_float py_int base w = (Ok (), w') →
  is_Some (files w' !! (base ++ lit "-post.frd")).
Proof.
  unfold pipeline, mbind, io_bind, lift.
  destruct (read_displacements _ _ w) as [[orig_disp|?] w1]; [|done].
  destruct (read_expansion _ _ w1) as [[expansion|?] w2]; [|done].
  destruct (new_displacements orig_disp expansion) as [new|?]; [|done].
  apply splice_written.
Qed.

(** C9. Run without an argument after the program name, [main] prints the
    module's docstring and raises SystemExit with code 1: the exit status
    is 1, no file is opened and no file has changed. With a base name, it
    runs the four stages on that name; the exit status is 0 exactly when
    all of them returned, and then <base>-post.frd has been written. *)
Theorem main_exit_status sys_argv w :
  ((length sys_argv < 2)%nat →
   run py_float py_int sys_argv w
   = (Raise (SystemExit 1),
      World (files w) (events w ++ [Print (doc ++ [newline])]))
   ∧ exit_status (run py_float py_int sys_argv w).1 = 1)
  ∧ (∀ base, sys_argv !! 1%nat = Some base →
       run py_float py_int sys_argv w = pipeline py_float py_int base w
       ∧ (exit_status (run py_float py_int sys_argv w).1 = 0 ↔
          (run py_float py_int sys_argv w).1 = Ok ())
       ∧ (exit_status (run py_float py_int sys_argv w).1 = 0 →
          is_Some (files (run py_float py_int sys_argv w).2
                   !! (base ++ lit "-post.frd")))).
Proof.
  split.
  - intros Hlen. unfold run, main, mbind, io_bind.
    destruct (Z.ltb_spec (Z.of_nat (length sys_argv)) 2); [|lia].
    unfold print, raise, lift, log. simpl. done.
  - intros base Hbase.
    assert (run py_float py_int sys_argv w
            = pipeline py_float py_int base w) as Hmain.
    { unfold run, main, pipeline, mbind, io_bind.
      pose proof (lookup_lt_Some _ _ _ Hbase) as Hlen.
      destruct (Z.ltb_spec (Z.of_nat (length sys_argv)) 2); [lia|].
      assert (getitem sys_argv 1 = Ok base) as Hget
        by by apply getitem_nonneg.
      unfold mret, io_ret, lift. rewrite Hget.
      destruct (read_displacements _ _ _) as [[orig_disp|?] w1]; [|done].
      destruct (read_expansion _ _ _) as [[expansion|?] w2]; [|done].
      by destruct (new_displacements _ _) as [new|?]. }
    split; [done|]. rewrite Hmain.
    pose proof (no_exit_pipeline base w) as Hno.
    destruct (pipeline py_float py_int base w) as [[[]|e] w'] eqn:Hrun; simpl.
    + split; [done|]. intros _. by apply (pipeline_written base w).
    + split; [split; [|done] | ]; destruct e; try done;
        intros ->; exfalso; apply Hno; by eexists.
Qed.
End main.

(** ** The properties on the small job *)

Lemma splice_wrong_offset_witness :
  splice (lit "job") job_new (job_world bad_frd)
  = (Raise (ValueError (lit "wrong offset: 6")),
     World (job_files bad_frd) [OpenRead (lit "job.frd")]).
Proof.
  apply (splice_wrong_offset (lit "job") job_new (job_world bad_frd) bad_frd
           1 (lit " 9999" ++ [newline])).
  - run.
  - decided.
  - run.
  - run.
Defined.

Lemma splice_inserts_witness :
  ∃ w' written,
    splice (lit "job") job_new (job_world job_frd) = (Ok (), w')
    ∧ files w' !! lit "job-post.frd" = Some written
    ∧ length (readlines written) = 11%nat
    ∧ files w' !! lit "job.frd" = Some job_frd.
Proof.
  destruct (splice_inserts (lit "job") job_new (job_world job_frd) job_frd
              2 (lit " -3" ++ [newline]))
    as (recs & w' & Hrun & Hrecs & _ & _ & Hback & Hfrd & _).
  6: destruct Hback as (written & Hw & _ & Hlen).
  - run.
  - decided.
  - run.
  - run.
  - repeat constructor.
  - exists w', written. split; [exact Hrun|]. split; [exact Hw|].
    split; [exact Hlen | exact Hfrd].
Defined.

Lemma read_displacements_block_witness :
  ∃ disp,
    read_displacements float_literal (lit "job") (job_world job_frd)
    = (Ok disp, World (job_files job_frd) [OpenRead (lit "job.dat")])
    ∧ length disp = 6%nat
    ∧ Forall (fun t => length t = 3%nat) disp.
Proof.
  destruct (read_displacements_block float_literal (lit "job")
              (job_world job_frd) job_dat 1 10)
    as (disp & Hrun & Hlen & _ & Hthree).
  - run.
  - decided.
  - decided.
  - simpl. lia.
  - decided.
  - exists disp. split; [exact Hrun|]. split; [exact Hlen | exact Hthree].
Defined.

Lemma read_expansion_records_witness :
  ∃ recs,
    read_expansion int_literal (lit "job") (job_world job_frd)
    = (Ok recs, World (job_files job_frd) [OpenRead (lit "job.12d")])
    ∧ Forall (fun r => length (Expansion.orig r) = 6%nat
                       ∧ length (Expansion.new r) = 15%nat) recs.
Proof.
  destruct (read_expansion_records int_literal (lit "job")
              (job_world job_frd) job_12d)
    as (recs & markers & Hrun & _ & _ & Hall & _).
  - run.
  - decided.
  - exists recs. split; [exact Hrun|].
    clear Hrun. induction Hall as [|i r markers recs [_ Hr] _ IH];
      constructor; [exact Hr | exact IH].
Defined.

Lemma main_exit_status_witness :
  run float_literal int_literal [lit "post.py"] (job_world job_frd)
  = (Raise (SystemExit 1), World (job_files job_frd) [Print (doc ++ [newline])])
  ∧ exit_status
      (run float_literal int_literal [lit "post.py"; lit "job"]
         (job_world job_frd)).1 = 0
  ∧ is_Some
      (files
         (run float_literal int_literal [lit "post.py"; lit "job"]
            (job_world job_frd)).2
       !! (lit "job" ++ lit "-post.frd")).
Proof.
  destruct (main_exit_status float_literal int_literal [lit "post.py"]
              (job_world job_frd)) as [Husage _].
  destruct (main_exit_status float_literal int_literal
              [lit "post.py"; lit "job"] (job_world job_frd))
    as [_ Hrun].
  destruct Husage as [Husage _]; [simpl; lia|].
  destruct (Hrun (lit "job") eq_refl) as (_ & Hstatus & Hwritten).
  assert (exit_status
            (run float_literal int_literal [lit "post.py"; lit "job"]
               (job_world job_frd)).1 = 0) as Hzero by run.
  split; [exact Husage|]. split; [exact Hzero|]. exact (Hwritten Hzero).
Defined.

(** ** The digits of a float *)

Lemma pow10_pos (k : Z) : 0 ≤ k → 0 < 10 ^ k.
Proof. intros Hk. by apply Z.pow_pos_nonneg. Qed.

Lemma pow10_succ (k : Z) : 0 ≤ k → 10 ^ (k + 1) = 10 * 10 ^ k.
Proof. intros Hk. rewrite Z.pow_add_r by lia. lia. Qed.

Lemma below_pow10 (a : Z) : 0 < a → a < 10 ^ (Z.log2 a + 1).
Proof.
  intros Ha. destruct (Z.log2_spec a Ha) as [_ Hlt].
  pose proof (Z.log2_nonneg a) as Hlog.
  assert (2 ^ (Z.log2 a + 1) ≤ 10 ^ (Z.log2 a + 1))
    by (apply Z.pow_le_mono_l; lia).
  unfold Z.succ in Hlt. lia.
Qed.

Lemma exp_up_spec (fuel : nat) (a b k : Z) :
  0 < b → 0 ≤ k → b * 10 ^ k ≤ a → a < b * 10 ^ (k + Z.of_nat fuel) →
  k ≤ exp_up fuel a b k
  ∧ b * 10 ^ exp_up fuel a b k ≤ a < b * 10 ^ (exp_up fuel a b k + 1).
Proof.
  revert k. induction fuel as [|fuel IH]; intros k Hb Hk Hlow Hhigh.
  - rewrite Z.add_0_r in Hhigh. lia.
  - simpl. destruct (Z.leb_spec (b * 10 ^ (k + 1)) a) as [Hnext|Hnext].
    + destruct (IH (k + 1)) as [? ?]; try lia.
      replace (k + 1 + Z.of_nat fuel) with (k + Z.of_nat (S fuel)) by lia.
      done.
    + lia.
Qed.

Lemma exp_down_spec (fuel : nat) (a b j : Z) :
  0 < a → 1 ≤ j → a * 10 ^ (j - 1) < b →
  b ≤ a * 10 ^ (j + Z.of_nat fuel - 1) →
  j ≤ exp_down fuel a b j
  ∧ a * 10 ^ (exp_down fuel a b j - 1) < b ≤ a * 10 ^ exp_down fuel a b j.
Proof.
  revert j. induction fuel as [|fuel IH]; intros j Ha Hj Hlow Hhigh.
  - rewrite Z.add_0_r in Hhigh. lia.
  - simpl. destruct (Z.leb_spec b (a * 10 ^ j)) as [Hhere|Hhere].
    + lia.
    + destruct (IH (j + 1)) as [? ?]; try lia.
      * by replace (j + 1 - 1) with j by lia.
      * by replace (j + 1 + Z.of_nat fuel - 1)
          with (j + Z.of_nat (S fuel) - 1) by lia.
Qed.

(** [decimal_exponent a b] is the [k] with [10^k <= a/b < 10^(k+1)]. *)
Lemma decimal_exponent_spec (a b : Z) :
  0 < a → 0 < b →
  let k := decimal_exponent a b in
  (0 ≤ k ∧ b * 10 ^ k ≤ a < b * 10 ^ (k + 1))
  ∨ (k < 0 ∧ a * 10 ^ (- k - 1) < b ≤ a * 10 ^ (- k)).
Proof.
  intros Ha Hb. unfold decimal_exponent.
  pose proof (Z.log2_nonneg a) as Hla. pose proof (Z.log2_nonneg b) as Hlb.
  destruct (Z.leb_spec b a) as [Hba|Hab]; simpl.
  - left.
    destruct (exp_up_spec (Z.to_nat (Z.log2 a) + 1) a b 0) as [? ?];
      try lia.
    pose proof (below_pow10 a Ha) as Hlt.
    replace (0 + Z.of_nat (Z.to_nat (Z.log2 a) + 1)) with (Z.log2 a + 1)
      by lia.
    nia.
  - right.
    destruct (exp_down_spec (Z.to_nat (Z.log2 b) + 1) a b 1) as [? ?];
      try lia.
    + pose proof (below_pow10 b Hb) as Hlt.
      replace (1 + Z.of_nat (Z.to_nat (Z.log2 b) + 1) - 1)
        with (Z.log2 b + 1) by lia.
      nia.
    + split; [lia|].
      by replace (- - exp_down (Z.to_nat (Z.log2 b) + 1) a b 1)
        with (exp_down (Z.to_nat (Z.log2 b) + 1) a b 1) by lia.
Qed.

(** The rounded quotient is a nearest integer. *)
Lemma round_half_even_nearest (num den : Z) :
  0 < den →
  2 * Z.abs (num - round_half_even num den * den) ≤ den.
Proof.
  intros Hden. unfold round_half_even.
  pose proof (Z.div_mod num den ltac:(lia)) as Hdm.
  pose proof (Z.mod_pos_bound num den Hden) as Hmod.
  destruct (Z.ltb_spec (2 * (num mod den)) den);
    [|destruct (Z.ltb_spec den (2 * (num mod den)));
      [|destruct (Z.even (num / den))]]; nia.
Qed.

Lemma round_half_even_range (num den lo : Z) :
  0 < den → den * lo ≤ num < den * (10 * lo) →
  lo ≤ round_half_even num den ≤ 10 * lo.
Proof.
  intros Hden [Hlow Hhigh]. unfold round_half_even.
  assert (lo ≤ num / den) by (apply Z.div_le_lower_bound; lia).
  assert (num / den < 10 * lo) by (apply Z.div_lt_upper_bound; lia).
  destruct (Z.ltb_spec (2 * (num mod den)) den);
    [|destruct (Z.ltb_spec den (2 * (num mod den)));
      [|destruct (Z.even (num / den))]]; lia.
Qed.

(** The six digits are normalised: the first one is not 0. *)
Lemma sci6_normalised (m : positive) (e : Z) :
  100000 ≤ (sci6 m e).1 ≤ 999999.
Proof.
  unfold sci6.
  set (a := if 0 <=? e then Z.pos m * 2 ^ e else Z.pos m).
  set (b := if 0 <=? e then 1 else 2 ^ (- e)).
  assert (0 < a) as Ha.
  { unfold a. destruct (Z.leb_spec 0 e); [|lia].
    pose proof (Z.pow_pos_nonneg 2 e). lia. }
  assert (0 < b) as Hb.
  { unfold b. destruct (Z.leb_spec 0 e); [lia|].
    apply Z.pow_pos_nonneg; lia. }
  pose proof (decimal_exponent_spec a b Ha Hb) as Hk. simpl in Hk.
  set (k := decimal_exponent a b) in *.
  assert (100000 ≤ (if k <=? 5
                    then round_half_even (a * 10 ^ (5 - k)) b
                    else round_half_even a (b * 10 ^ (k - 5))) ≤ 10 * 100000)
    as Hd.
  { destruct (Z.leb_spec k 5) as [Hk5|Hk5].
    - apply round_half_even_range; [done|].
      destruct Hk as [[Hk0 [Hlow Hhigh]]|[Hk0 [Hlow Hhigh]]].
      + assert (10 ^ k * 10 ^ (5 - k) = 100000) as Hpow.
        { rewrite <- Z.pow_add_r by lia.
          by replace (k + (5 - k)) with 5 by lia. }
        rewrite pow10_succ in Hhigh by lia.
        pose proof (pow10_pos (5 - k) ltac:(lia)). nia.
      + assert (10 ^ (5 - k) = 10 ^ (- k) * 100000) as Hpow1.
        { replace (5 - k) with (- k + 5) by lia.
          by rewrite Z.pow_add_r by lia. }
        assert (10 ^ (5 - k) = 10 ^ (- k - 1) * 1000000) as Hpow2.
        { replace (5 - k) with (- k - 1 + 6) by lia.
          by rewrite Z.pow_add_r by lia. }
        split; [rewrite Hpow1 | rewrite Hpow2]; nia.
    - destruct Hk as [[Hk0 [Hlow Hhigh]]|[Hk0 _]]; [|lia].
      assert (10 ^ k = 10 ^ (k - 5) * 100000) as Hpow.
      { replace k with (k - 5 + 5) at 1 by lia.
        by rewrite Z.pow_add_r by lia. }
      rewrite pow10_succ in Hhigh by lia.
      pose proof (pow10_pos (k - 5) ltac:(lia)).
      apply round_half_even_range; nia. }
  destruct (Z.eqb_spec
              (if k <=? 5 then round_half_even (a * 10 ^ (5 - k)) b
               else round_half_even a (b * 10 ^ (k - 5))) 1000000);
    simpl; lia.
Qed.

(** * Further properties *)

(** ** Which exceptions a computation can raise *)

Lemma raises_in_Ok {A : Type} (P : exn → Prop) (a : A) : raises_in P (Ok a).
Proof. by intros e. Qed.

Lemma raises_in_Raise {A : Type} (P : exn → Prop) (e : exn) :
  P e → raises_in P (@Raise A e).
Proof. by intros He e' [= <-]. Qed.

Lemma raises_in_weaken {A : Type} (P Q : exn → Prop) (r : result A) :
  (∀ e, P e → Q e) → raises_in P r → raises_in Q r.
Proof. intros HPQ Hr e He. by apply HPQ, Hr. Qed.

Lemma raises_in_bind {A B : Type} (P : exn → Prop) (r : result A)
    (f : A → result B) :
  raises_in P r → (∀ a, raises_in P (f a)) → raises_in P (r ≫= f).
Proof.
  intros Hr Hf. destruct r as [a|e]; simpl; [apply Hf|].
  intros e' [= <-]. by apply Hr.
Qed.

Lemma raises_in_for {A S : Type} (P : exn → Prop) (body : S → A → result S)
    s l :
  (∀ s a, raises_in P (body s a)) → raises_in P (for_ body s l).
Proof.
  intros Hbody. revert s. induction l as [|a l IH]; intros s; simpl.
  - apply raises_in_Ok.
  - apply raises_in_bind; auto.
Qed.

Lemma raises_in_comprehension {A B : Type} (P : exn → Prop)
    (f : A → result B) l :
  (∀ a, raises_in P (f a)) → raises_in P (comprehension f l).
Proof.
  intros Hf. induction l as [|a l IH]; simpl; [apply raises_in_Ok|].
  apply raises_in_bind; [done|]. intros b.
  apply raises_in_bind; [done|]. intros bs. apply raises_in_Ok.
Qed.

Lemma raises_in_getitem {A : Type} (P : exn → Prop) (l : list A) (i : Z) :
  P IndexError → raises_in P (getitem l i).
Proof. intros HP e He. by apply getitem_Raise in He as [-> _]. Qed.


Lemma raises_in_int (P : exn → Prop) py_int s :
  P (ConversionError s) → raises_in P (int py_int s).
Proof. intros HP e. unfold int. destruct (py_int s); by intros [= <-]. Qed.

(** ** Slices *)

Lemma slice_from_1 {A : Type} (l : list A) : slice_from l 1 = drop 1 l.
Proof.
  destruct l as [|a l]; [done|].
  unfold slice_from. rewrite slice_inside; [|cbn [length]; lia..].
  apply take_ge. rewrite length_drop. lia.
Qed.

Lemma slice_empty {A : Type} (l : list A) (a b : Z) :
  0 ≤ b ≤ a → slice l a b = [].
Proof.
  intros Hab. unfold slice.
  destruct (Z.ltb_spec a 0); [lia|]. destruct (Z.ltb_spec b 0); [lia|].
  replace (Z.to_nat (Z.min b (Z.of_nat (length l))
                     - Z.min a (Z.of_nat (length l)))) with 0%nat by lia.
  done.
Qed.

Lemma slice_to_last {A : Type} (l : list A) (a : nat) :
  slice l (Z.of_nat a) (-1) = take (length l - 1 - a) (drop a l).
Proof.
  unfold slice. destruct (Z.ltb_spec (Z.of_nat a) 0); [lia|]. simpl.
  destruct (Nat.le_gt_cases a (length l)) as [Ha|Ha].
  - rewrite Z.min_l by lia. rewrite Nat2Z.id. f_equal. lia.
  - rewrite Z.min_r by lia. rewrite Nat2Z.id.
    rewrite !drop_ge by lia. by rewrite !take_nil.
Qed.

(** ** More on read_displacements *)

Section readers_more.
Variable py_float : str → option spec_float.
Variable py_int : str → option Z.

Lemma comprehension_float (l : list str) t :
  comprehension (float py_float) l = Ok t ↔ mapM py_float l = Some t.
Proof.
  rewrite comprehension_Ok, mapM_Some. unfold float.
  split; intros H; (eapply Forall2_impl; [exact H|]); intros tok x; simpl.
  - by destruct (py_float tok); intros [= ->].
  - by intros ->.
Qed.

Lemma tuples_Ok (block : list str) disp :
  comprehension
    (fun ln => comprehension (float py_float) (slice_from (split ln) 1))
    block = Ok disp
  ↔ Forall2 (fun ln t => floats_after_first py_float ln = Some t) block disp.
Proof.
  rewrite comprehension_Ok. unfold floats_after_first.
  split; intros H; (eapply Forall2_impl; [exact H|]); intros ln t; simpl;
    by rewrite slice_from_1, comprehension_float.
Qed.

(** With both markers found, the function is the comprehension over the
    slice between them. *)
Lemma read_displacements_run base w text (d e : nat) :
  files w !! (base ++ lit ".dat") = Some text →
  first_line (contains (lit "displacements")) (strip <$> readlines text) d →
  first_line (contains (lit "energy")) (strip <$> readlines text) e →
  read_displacements py_float base w
  = (comprehension
       (fun ln => comprehension (float py_float) (slice_from (split ln) 1))
       (slice (strip <$> readlines text) (Z.of_nat d + 2) (Z.of_nat e + 2 - 3)),
     World (files w) (events w ++ [OpenRead (base ++ lit ".dat")])).
Proof.
  intros Hfile Hd He.
  unfold read_displacements, mbind, io_bind, open_readlines.
  rewrite Hfile. unfold lift.
  rewrite (first_line_getitem _ _ _ He). simpl.
  by rewrite (first_line_getitem _ _ _ Hd).
Qed.

(** X1. With both markers found, [read_displacements] returns exactly when
    every token after the first, on every line of the slice
    [lines[d+2 : e+2-3]], is a float; the tuple of a line then holds these
    floats, however many they are: none for a blank line. *)
Theorem read_displacements_parses base w text (d e : nat) disp :
  files w !! (base ++ lit ".dat") = Some text →
  first_line (contains (lit "displacements")) (strip <$> readlines text) d →
  first_line (contains (lit "energy")) (strip <$> readlines text) e →
  read_displacements py_float base w
  = (Ok disp, World (files w) (events w ++ [OpenRead (base ++ lit ".dat")]))
  ↔ Forall2 (fun ln t => floats_after_first py_float ln = Some t)
      (slice (strip <$> readlines text) (Z.of_nat d + 2) (Z.of_nat e + 2 - 3))
      disp.
Proof.
  intros Hfile Hd He.
  rewrite (read_displacements_run _ _ _ _ _ Hfile Hd He), <- tuples_Ok.
  split; [by intros [= ->] | by intros ->].
Qed.

(** X2. When the first "energy" line is not the first line of the file and
    comes before the "displacements" line, or no more than three lines
    after it, the slice is empty: the function returns the empty tuple and
    raises nothing. *)
Theorem read_displacements_empty base w text (d e : nat) :
  files w !! (base ++ lit ".dat") = Some text →
  first_line (contains (lit "displacements")) (strip <$> readlines text) d →
  first_line (contains (lit "energy")) (strip <$> readlines text) e →
  (1 ≤ e ≤ d + 3)%nat →
  read_displacements py_float base w
  = (Ok [], World (files w) (events w ++ [OpenRead (base ++ lit ".dat")])).
Proof.
  intros Hfile Hd He Hde.
  rewrite (read_displacements_run _ _ _ _ _ Hfile Hd He).
  by rewrite slice_empty by lia.
Qed.

(** X3. When the very first line of the file holds "energy", the end of
    the slice is [-1]: the data lines run from line [d + 2] up to, but not
    including, the last line of the file. *)
Theorem read_displacements_wraps base w text (d : nat) disp :
  files w !! (base ++ lit ".dat") = Some text →
  first_line (contains (lit "displacements")) (strip <$> readlines text) d →
  first_line (contains (lit "energy")) (strip <$> readlines text) 0 →
  read_displacements py_float base w
  = (Ok disp, World (files w) (events w ++ [OpenRead (base ++ lit ".dat")]))
  ↔ Forall2 (fun ln t => floats_after_first py_float ln = Some t)
      (take (length (readlines text) - 1 - (d + 2))
            (drop (d + 2) (strip <$> readlines text)))
      disp.
Proof.
  intros Hfile Hd He.
  rewrite (read_displacements_run _ _ _ _ _ Hfile Hd He), <- tuples_Ok.
  replace (Z.of_nat d + 2) with (Z.of_nat (d + 2)) by lia.
  replace (Z.of_nat 0 + 2 - 3) with (-1) by lia.
  rewrite slice_to_last, length_fmap.
  split; [by intros [= ->] | by intros ->].
Qed.

(** X4. When no line holds "energy", or no line holds "displacements",
    the function raises IndexError. *)
Theorem read_displacements_missing_marker base w text :
  files w !! (base ++ lit ".dat") = Some text →
  Forall (fun ln => contains (lit "energy") ln = false)
         (strip <$> readlines text)
  ∨ Forall (fun ln => contains (lit "displacements") ln = false)
           (strip <$> readlines text) →
  read_displacements py_float base w
  = (Raise IndexError,
     World (files w) (events w ++ [OpenRead (base ++ lit ".dat")])).
Proof.
  intros Hfile Hnone.
  unfold read_displacements, mbind, io_bind, open_readlines.
  rewrite Hfile. unfold lift, log. simpl. f_equal.
  destruct Hnone as [Hnone|Hnone].
  - by rewrite (no_line_getitem _ _ Hnone).
  - rewrite (no_line_getitem _ _ Hnone).
    destruct (getitem (indices (contains (lit "energy")) _) 0) as [e|err]
      eqn:He; [done|].
    by apply getitem_Raise in He as [-> _].
Qed.

(** X5. Whatever they find, the two readers change no file, and the only
    effect of each is that it opens its own input for reading. *)
Theorem readers_only_read base w :
  (read_displacements py_float base w).2
  = World (files w) (events w ++ [OpenRead (base ++ lit ".dat")])
  ∧ (read_expansion py_int base w).2
    = World (files w) (events w ++ [OpenRead (base ++ lit ".12d")]).
Proof.
  unfold read_displacements, read_expansion, mbind, io_bind, open_readlines.
  split.
  - by destruct (files w !! (base ++ lit ".dat")).
  - by destruct (files w !! (base ++ lit ".12d")).
Qed.
End readers_more.

Lemma read_displacements_parses_witness :
  read_displacements float_literal (lit "job") (one_file (lit "job.dat") ragged_dat)
  = (Ok [[S754_finite false 1 0; S754_zero false; S754_zero false]; [];
         [S754_zero false]],
     World {[ lit "job.dat" := ragged_dat ]} [OpenRead (lit "job.dat")]).
Proof.
  apply (read_displacements_parses float_literal (lit "job")
           (one_file (lit "job.dat") ragged_dat) ragged_dat 0 6).
  - run.
  - decided.
  - decided.
  - repeat constructor.
Defined.

Lemma read_displacements_empty_witness :
  read_displacements float_literal (lit "job")
    (one_file (lit "job.dat") energy_before_dat)
  = (Ok [], World {[ lit "job.dat" := energy_before_dat ]}
               [OpenRead (lit "job.dat")]).
Proof.
  apply (read_displacements_empty float_literal (lit "job")
           (one_file (lit "job.dat") energy_before_dat) energy_before_dat 5 1).
  - run.
  - decided.
  - decided.
  - lia.
Defined.

Lemma read_displacements_wraps_witness :
  read_displacements float_literal (lit "job")
    (one_file (lit "job.dat") energy_first_dat)
  = (Ok [[S754_finite false 1 0; S754_zero false; S754_zero false];
         [S754_zero false; S754_finite false 2 0; S754_zero false]],
     World {[ lit "job.dat" := energy_first_dat ]} [OpenRead (lit "job.dat")]).
Proof.
  apply (read_displacements_wraps float_literal (lit "job")
           (one_file (lit "job.dat") energy_first_dat) energy_first_dat 1).
  - run.
  - decided.
  - decided.
  - repeat constructor.
Defined.

Lemma read_displacements_missing_marker_witness :
  read_displacements float_literal (lit "job")
    (one_file (lit "job.dat") no_energy_dat)
  = (Raise IndexError,
     World {[ lit "job.dat" := no_energy_dat ]} [OpenRead (lit "job.dat")]).
Proof.
  apply (read_displacements_missing_marker float_literal (lit "job")
           (one_file (lit "job.dat") no_energy_dat) no_energy_dat).
  - run.
  - left. decided.
Defined.

(** ** More on read_expansion *)

Section expansion_more.
Variable py_int : str → option Z.

Lemma comprehension_int (l : list str) zs :
  comprehension (int py_int) l = Ok zs ↔ mapM py_int l = Some zs.
Proof.
  rewrite comprehension_Ok, mapM_Some. unfold int.
  split; intros H; (eapply Forall2_impl; [exact H|]); intros tok z; simpl.
  - by destruct (py_int tok); intros [= ->].
  - by intros ->.
Qed.

Lemma read_element_Ok lines rv (i : Z) rv' :
  0 ≤ i →
  read_element py_int lines rv i = Ok rv' ↔
    ∃ r, element_at py_int lines (Z.to_nat i) = Some r ∧ rv' = rv ++ [r].
Proof.
  intros Hi. split.
  - unfold read_element. intros H.
    apply bind_Ok in H as (ln & Hln & H).
    apply bind_Ok in H as (tok & Htok & H).
    apply bind_Ok in H as (element & Hel & H).
    apply bind_Ok in H as (ln1 & Hln1 & H).
    apply bind_Ok in H as (orig & Horig & H).
    apply bind_Ok in H as (ln3 & Hln3 & H).
    apply bind_Ok in H as (new3 & Hnew3 & H).
    apply bind_Ok in H as (ln4 & Hln4 & H).
    apply bind_Ok in H as (new4 & Hnew4 & [= <-]).
    apply getitem_nonneg in Hln, Htok, Hln1, Hln3, Hln4; try lia.
    apply comprehension_int in Horig, Hnew3, Hnew4.
    unfold int in Hel. destruct (py_int tok) as [z|] eqn:Hz; [|done].
    injection Hel as ->.
    eexists. split; [|done]. unfold element_at, ints.
    replace (Z.to_nat (i + 1)) with (Z.to_nat i + 1)%nat in Hln1 by lia.
    replace (Z.to_nat (i + 3)) with (Z.to_nat i + 3)%nat in Hln3 by lia.
    replace (Z.to_nat (i + 4)) with (Z.to_nat i + 4)%nat in Hln4 by lia.
    rewrite Hln. simpl. change (Z.to_nat 1) with 1%nat in Htok.
    rewrite Htok. simpl. rewrite Hz. simpl. rewrite Hln1. simpl.
    rewrite Horig. simpl. rewrite Hln3. simpl. rewrite Hnew3. simpl.
    rewrite Hln4. simpl. by rewrite Hnew4.
  - intros (r & Hr & ->). rewrite <- (Z2Nat.id i) at 1 by done.
    by apply element_at_read.
Qed.

Lemma read_elements_Ok lines (idx : list Z) rv out :
  Forall (fun i => 0 ≤ i) idx →
  for_ (read_element py_int lines) rv idx = Ok out ↔
    ∃ recs, out = rv ++ recs
            ∧ Forall2 (fun i r => element_at py_int lines (Z.to_nat i) = Some r)
                idx recs.
Proof.
  intros Hidx. revert rv.
  induction Hidx as [|i idx Hi _ IH]; intros rv; simpl.
  - split.
    + intros [= <-]. exists []. split; [by rewrite app_nil_r | constructor].
    + intros (recs & -> & Hrecs). inversion Hrecs. by rewrite app_nil_r.
  - rewrite bind_Ok. split.
    + intros (rv1 & Hstep & Hrest).
      apply read_element_Ok in Hstep as (r & Hr & ->); [|done].
      apply IH in Hrest as (recs & -> & Hrecs).
      exists (r :: recs). split; [by rewrite <- app_assoc | by constructor].
    + intros (recs & -> & Hrecs).
      inversion Hrecs as [|? r ? recs' Hr Hrecs']; subst.
      exists (rv ++ [r]). split.
      * apply read_element_Ok; [done|]. by exists r.
      * apply IH. exists recs'. split; [by rewrite <- app_assoc | done].
Qed.

Lemma read_element_raises lines rv (i : Z) :
  raises_in (fun e => e = IndexError ∨ ∃ tok, e = ConversionError tok)
    (read_element py_int lines rv i).
Proof.
  unfold read_element.
  repeat first
    [ apply raises_in_Ok
    | apply raises_in_getitem; by left
    | apply raises_in_int; right; by eexists
    | apply raises_in_comprehension; intros ?
    | apply raises_in_bind; [|intros ?] ].
Qed.

Lemma read_expansion_run base w text :
  files w !! (base ++ lit ".12d") = Some text →
  read_expansion py_int base w
  = (for_ (read_element py_int (strip <$> readlines text)) []
       (indices (fun ln => startswith ln (lit "ELEMENT"))
          (strip <$> readlines text)),
     World (files w) (events w ++ [OpenRead (base ++ lit ".12d")])).
Proof.
  intros Hfile. unfold read_expansion, mbind, io_bind, open_readlines.
  by rewrite Hfile.
Qed.

Lemma indices_nonneg {A : Type} (p : A → bool) (l : list A) :
  Forall (fun i => 0 ≤ i) (indices p l).
Proof.
  apply Forall_forall. intros i Hi. by apply indices_elem_of in Hi as [? _].
Qed.

(** X6. [read_expansion] returns exactly when every line that starts with
    "ELEMENT" starts a record that can be read; the result holds these
    records in the order of their lines. The lengths of [orig] and [new]
    are not checked, and a file without such a line gives the empty
    tuple. *)
Theorem read_expansion_parses base w text recs :
  files w !! (base ++ lit ".12d") = Some text →
  read_expansion py_int base w
  = (Ok recs, World (files w) (events w ++ [OpenRead (base ++ lit ".12d")]))
  ↔ Forall2 (fun i r => element_at py_int (strip <$> readlines text) i = Some r)
      (markers (strip <$> readlines text)) recs.
Proof.
  intros Hfile. rewrite (read_expansion_run _ _ _ Hfile).
  unfold markers. rewrite Forall2_fmap_l.
  pose proof (read_elements_Ok (strip <$> readlines text)
                (indices (fun ln => startswith ln (lit "ELEMENT"))
                   (strip <$> readlines text)) [] recs
                (indices_nonneg _ _)) as Hloop.
  split.
  - intros [= Hrun]. apply Hloop in Hrun as (recs' & -> & Hrecs). done.
  - intros Hrecs. f_equal. apply Hloop. by exists recs.
Qed.

(** X7. When a line that starts with "ELEMENT" is one of the last four
    lines of the file, [read_expansion] raises: IndexError for the line
    that is not there, unless a token before it is not an integer. *)
Theorem read_expansion_truncated base w text (i : nat) ln :
  files w !! (base ++ lit ".12d") = Some text →
  (strip <$> readlines text) !! i = Some ln →
  startswith ln (lit "ELEMENT") = true →
  (length (readlines text) ≤ i + 4)%nat →
  ∃ err,
    read_expansion py_int base w
    = (Raise err, World (files w) (events w ++ [OpenRead (base ++ lit ".12d")]))
    ∧ (err = IndexError ∨ ∃ tok, err = ConversionError tok).
Proof.
  intros Hfile Hln Hstart Hshort. rewrite (read_expansion_run _ _ _ Hfile).
  destruct (for_ _ _ _) as [recs|err] eqn:Hrun.
  - exfalso.
    apply read_elements_Ok in Hrun as (recs' & _ & Hrecs);
      [|apply indices_nonneg].
    assert (Z.of_nat i ∈ indices (fun ln => startswith ln (lit "ELEMENT"))
                           (strip <$> readlines text)) as Hin.
    { apply indices_elem_of. split; [lia|]. exists ln. by rewrite Nat2Z.id. }
    apply list_elem_of_lookup in Hin as [k Hk].
    destruct (Forall2_lookup_l _ _ _ _ _ Hrecs Hk) as (r & _ & Hr).
    rewrite Nat2Z.id in Hr. unfold element_at in Hr.
    destruct ((strip <$> readlines text) !! (i + 4)%nat) as [ln4|] eqn:Hln4.
    + apply lookup_lt_Some in Hln4. rewrite length_fmap in Hln4. lia.
    + rewrite Hln in Hr. simpl in Hr.
      destruct (split ln !! 1%nat); [|done]. simpl in Hr.
      destruct (py_int _); [|done]. simpl in Hr.
      destruct (_ !! (i + 1)%nat); [|done]. simpl in Hr.
      destruct (ints _ _); [|done]. simpl in Hr.
      destruct (_ !! (i + 3)%nat); [|done]. simpl in Hr.
      by destruct (ints _ _).
  - exists err. split; [done|].
    eapply (raises_in_for
              (fun e => e = IndexError ∨ ∃ tok, e = ConversionError tok));
      [|exact Hrun].
    intros rv k. apply read_element_raises.
Qed.
End expansion_more.

Lemma read_expansion_parses_witness :
  read_expansion int_literal (lit "job") (one_file (lit "job.12d") short_12d)
  = (Ok [Expansion.mk 7 [1; 2; 3; 4; 5] [10; 11; 12; 13]],
     World {[ lit "job.12d" := short_12d ]} [OpenRead (lit "job.12d")]).
Proof.
  apply (read_expansion_parses int_literal (lit "job")
           (one_file (lit "job.12d") short_12d) short_12d).
  - run.
  - repeat constructor.
Defined.

Lemma read_expansion_truncated_witness :
  ∃ err,
    read_expansion int_literal (lit "job")
      (one_file (lit "job.12d") truncated_12d)
    = (Raise err, World {[ lit "job.12d" := truncated_12d ]}
                    [OpenRead (lit "job.12d")])
    ∧ (err = IndexError ∨ ∃ tok, err = ConversionError tok).
Proof.
  apply (read_expansion_truncated int_literal (lit "job")
           (one_file (lit "job.12d") truncated_12d) truncated_12d 5
           (lit "ELEMENT 2")).
  - run.
  - run.
  - run.
  - vm_compute. lia.
Defined.

(** ** More on new_displacements *)

Lemma raises_in_for_elem {A S : Type} (P : exn → Prop)
    (body : S → A → result S) s l :
  (∀ s a, a ∈ l → raises_in P (body s a)) → raises_in P (for_ body s l).
Proof.
  revert s. induction l as [|a l IH]; intros s Hbody; simpl.
  - apply raises_in_Ok.
  - apply raises_in_bind; [apply Hbody; by left|].
    intros s'. apply IH. intros s'' a' Ha'. apply Hbody. by right.
Qed.

Section displacements_more.
Context {D : Type}.
Implicit Types (orig : list D) (expansion : list Expansion.t).
Implicit Types (m : gmap Z D).

Lemma first_seen_exists expansion e n :
  e ∈ expansion → n ∈ Expansion.new e →
  ∃ i e' x, first_seen expansion i e' x n.
Proof.
  intros He Hn.
  destruct (list_find_elem_of (fun e' => n ∈ Expansion.new e') expansion e
              He Hn) as [[i e'] Hfind].
  apply list_find_Some in Hfind as (Hi & Hin & Hbefore).
  destruct (list_find_elem_of (fun k => k = n) (Expansion.new e') n Hin
              eq_refl) as [[x k] Hslot].
  apply list_find_Some in Hslot as (Hx & -> & Hslots).
  exists i, e', x. repeat split; try done.
  - intros Hin'. apply list_elem_of_lookup in Hin' as [x' Hx'].
    apply lookup_take_Some in Hx' as [Hx' Hlt]. by apply (Hslots x' n).
  - apply Forall_forall. intros e'' He''.
    apply list_elem_of_lookup in He'' as [i' Hi'].
    apply lookup_take_Some in Hi' as [Hi' Hlt]. by apply (Hbefore i' e'').
Qed.

(** X8. Every pair of the result comes from the slot where its id is met
    for the first time, and its displacement is an element of [orig]: the
    function makes up no id and no value. *)
Theorem new_displacements_sources orig expansion out n d :
  new_displacements orig expansion = Ok out → (n, d) ∈ out →
  d ∈ orig
  ∧ ∃ i e x j o,
      first_seen expansion i e x n
      ∧ table !! x = Some j
      ∧ Expansion.orig e !! Z.to_nat j = Some o
      ∧ getitem orig (o - 1) = Ok d.
Proof.
  intros Hout Hin.
  assert (∃ e, e ∈ expansion ∧ n ∈ Expansion.new e) as (e0 & He0 & Hn0).
  { destruct (new_displacements_Ok _ _ _ Hout) as (m & Hm & _ & Hpairs).
    apply Hpairs in Hin.
    destruct (proj1 (outer_dom _ _ _ _ n Hm)) as [Hempty|?]; [eauto| |done].
    rewrite lookup_empty in Hempty. by destruct Hempty. }
  destruct (first_seen_exists _ _ _ He0 Hn0) as (i & e & x & Hfirst).
  destruct (first_seen_value _ _ _ _ _ _ _ Hout Hfirst)
    as (j & o & d' & Hj & Ho & Hd & Hone).
  apply Hone in Hin as ->. split.
  - apply getitem_Ok in Hd as [[_ Hd]|(_ & _ & Hd)];
      by apply list_elem_of_lookup_2 in Hd.
  - by exists i, e, x, j, o.
Qed.

(** X10. A run that returns has met every new-node id for the first time
    at one of the slots 0 to 14, where the record held the original node
    that the table asks for, with an id within the range of the indices of
    [orig]. *)
Theorem new_displacements_needs orig expansion out i e x n :
  new_displacements orig expansion = Ok out →
  first_seen expansion i e x n →
  (x < 15)%nat
  ∧ ∃ j o, table !! x = Some j
           ∧ (Z.to_nat j < length (Expansion.orig e))%nat
           ∧ Expansion.orig e !! Z.to_nat j = Some o
           ∧ 1 - Z.of_nat (length orig) ≤ o ≤ Z.of_nat (length orig).
Proof.
  intros Hout Hfirst.
  destruct (first_seen_value _ _ _ _ _ _ _ Hout Hfirst)
    as (j & o & d & Hj & Ho & Hd & _).
  split; [by apply lookup_lt_Some in Hj|].
  exists j, o. split; [done|]. split; [by apply lookup_lt_Some in Ho|].
  split; [done|].
  apply getitem_Ok in Hd as [[? Hd]|(? & ? & Hd)];
    apply lookup_lt_Some in Hd; lia.
Qed.

Lemma expand_eq orig m e :
  expand orig m e
  = for_ (assign orig (Expansion.orig e)) m (enumerate (Expansion.new e)).
Proof. reflexivity. Qed.

Lemma slots_return orig (org : list Z) m (l : list (Z * Z)) :
  Forall (fun xn : Z * Z => 0 ≤ xn.1 < 15) l → (6 ≤ length org)%nat →
  Forall (fun o => 1 - Z.of_nat (length orig) ≤ o ≤ Z.of_nat (length orig))
         org →
  ∃ m', for_ (assign orig org) m l = Ok m'.
Proof.
  intros Hslots Horg Hrange. revert m.
  induction Hslots as [|[x n] l Hx _ IH]; intros m; [by eexists|].
  cbn [for_].
  destruct (assign_returns orig org m x n Hx Horg Hrange) as [m' ->].
  apply IH.
Qed.

Lemma enumerate_slots {A : Type} (l : list A) (k : nat) :
  (k ≤ 15)%nat →
  Forall (fun xn : Z * A => 0 ≤ xn.1 < 15) (take k (enumerate l)).
Proof.
  intros Hk. apply Forall_forall. intros [x a] Hin.
  apply list_elem_of_lookup in Hin as [i Hi].
  apply lookup_take_Some in Hi as [Hi Hlt].
  apply enumerate_lookup in Hi as [-> _]. simpl. lia.
Qed.

Lemma records_return orig es m :
  Forall (well_formed (length orig)) es →
  ∃ m', for_ (expand orig) m es = Ok m'.
Proof.
  intros Hwf. revert m.
  induction Hwf as [|e es (Hnew & Horg & Hrange) _ IH]; intros m;
    [by eexists|].
  cbn [for_]. rewrite expand_eq.
  destruct (slots_return orig (Expansion.orig e) m
              (enumerate (Expansion.new e))) as [m1 ->]; try done.
  { rewrite <- (take_ge (enumerate (Expansion.new e)) 15).
    - by apply enumerate_slots.
    - unfold enumerate. rewrite length_imap. lia. }
  apply IH.
Qed.

(** X11. After well-formed records, a record whose sixteenth slot holds a
    new-node id that was not met before makes the function raise
    KeyError 15: the table has no entry for slot 15. *)
Theorem too_many_new_nodes orig es e rest n :
  Forall (well_formed (length orig)) es →
  (6 ≤ length (Expansion.orig e))%nat →
  Forall (fun o => 1 - Z.of_nat (length orig) ≤ o ≤ Z.of_nat (length orig))
         (Expansion.orig e) →
  first_seen (es ++ e :: rest) (length es) e 15 n →
  new_displacements orig (es ++ e :: rest) = Raise (KeyError 15).
Proof.
  intros Hes Horg Hrange (_ & Hslot & Hslots & Hrecs).
  rewrite take_app_length in Hrecs.
  destruct (records_return orig es ∅ Hes) as [m Hm].
  assert (m !! n = None) as Hn.
  { apply eq_None_not_Some. rewrite (outer_dom _ _ _ _ _ Hm).
    rewrite lookup_empty. intros [[? ?]|(e' & He' & Hin)]; [done|].
    rewrite Forall_forall in Hrecs. by apply (Hrecs e'). }
  assert (enumerate (Expansion.new e) !! 15%nat = Some (15, n)) as Hen
    by by apply enumerate_lookup.
  destruct (slots_return orig (Expansion.orig e) m
              (take 15 (enumerate (Expansion.new e)))) as [m1 Hm1];
    try done; [by apply enumerate_slots|].
  assert (m1 !! n = None) as Hn1.
  { apply eq_None_not_Some. rewrite (inner_dom _ _ _ _ _ _ Hm1).
    rewrite fmap_take, enumerate_snd. intros [Hs|?]; [|done].
    rewrite Hn in Hs. by destruct Hs. }
  assert (assign orig (Expansion.orig e) m1 (15, n) = Raise (KeyError 15))
    as Hstep by (unfold assign; by rewrite Hn1).
  unfold new_displacements. rewrite for_app, Hm. cbn [mbind result_bind for_].
  rewrite expand_eq, <- (take_drop_middle _ _ _ Hen), for_app, Hm1.
  cbn [mbind result_bind for_]. by rewrite Hstep.
Qed.

Lemma new_displacements_raises_in orig expansion :
  raises_in (fun e => e = IndexError ∨ ∃ k, e = KeyError k ∧ 15 ≤ k)
    (new_displacements orig expansion).
Proof.
  intros err Hrun.
  destruct (for_ (expand orig) ∅ expansion) as [m|err'] eqn:Hloop.
  { destruct (new_displacements_total _ _ _ Hloop) as [out Hout].
    by rewrite Hout in Hrun. }
  unfold new_displacements in Hrun. rewrite Hloop in Hrun.
  injection Hrun as ->.
  eapply (raises_in_for (fun e => e = IndexError ∨ ∃ k, e = KeyError k ∧ 15 ≤ k));
    [|exact Hloop].
  intros m e. unfold expand. apply raises_in_for_elem. intros m' [x k] Hin.
  apply list_elem_of_lookup in Hin as [i Hi].
  apply enumerate_lookup in Hi as [-> _].
  unfold assign. destruct (m' !! k); [apply raises_in_Ok|].
  apply raises_in_bind.
  - unfold dict_getitem.
    destruct (mapping !! Z.of_nat i) as [j|] eqn:Hj; [apply raises_in_Ok|].
    apply raises_in_Raise. right. exists (Z.of_nat i). split; [done|].
    destruct (Z.le_gt_cases 15 (Z.of_nat i)) as [?|Hlt]; [done|].
    destruct (mapping_range (Z.of_nat i)) as (j & Hj' & _); [lia|].
    congruence.
  - intros j. apply raises_in_bind; [apply raises_in_getitem; by left|].
    intros o. apply raises_in_bind; [apply raises_in_getitem; by left|].
    intros d. apply raises_in_Ok.
Qed.

(** X12. The function raises nothing but IndexError and KeyError, and a
    KeyError only for a slot number of 15 or more. *)
Theorem new_displacements_raises orig expansion err :
  new_displacements orig expansion = Raise err →
  err = IndexError ∨ ∃ k, err = KeyError k ∧ 15 ≤ k.
Proof. apply new_displacements_raises_in. Qed.

Lemma known_slots_skip orig (org : list Z) m (l : list (Z * Z)) :
  Forall (fun xn : Z * Z => is_Some (m !! xn.2)) l →
  for_ (assign orig org) m l = Ok m.
Proof.
  induction 1 as [|[x n] l [d Hd] _ IH]; [done|].
  assert (assign orig org m (x, n) = Ok m) as Hstep
    by (unfold assign; simpl in Hd; by rewrite Hd).
  cbn [for_]. by rewrite Hstep.
Qed.

(** X13. A record whose new-node ids are all in the result already can be
    added at the end without any effect: none of its slots is looked up,
    so neither its original nodes nor the number of its slots matter. *)
Theorem seen_record_ignored orig expansion out e :
  new_displacements orig expansion = Ok out →
  (∀ n, n ∈ Expansion.new e → n ∈ out.*1) →
  new_displacements orig (expansion ++ [e]) = Ok out.
Proof.
  intros Hout Hseen.
  destruct (new_displacements_Ok _ _ _ Hout) as (m & Hm & Hkeys & _).
  unfold new_displacements in *. rewrite for_app, Hm.
  rewrite Hm in Hout. cbn [mbind result_bind for_] in *.
  rewrite expand_eq, known_slots_skip; [done|].
  apply Forall_forall. intros [x n] Hin. simpl.
  apply sorted_keys_elem_of. rewrite <- Hkeys. apply Hseen.
  rewrite <- (enumerate_snd (Expansion.new e)).
  apply list_elem_of_fmap. by exists (x, n).
Qed.

(** X14. The records at the front decide for good: the function returns
    on every initial part of a sequence on which it returns, and each pair
    of that result is a pair of the whole result. *)
Theorem prefix_stable orig es1 es2 out :
  new_displacements orig (es1 ++ es2) = Ok out →
  ∃ out1, new_displacements orig es1 = Ok out1
          ∧ ∀ n d, (n, d) ∈ out1 → (n, d) ∈ out.
Proof.
  intros Hout.
  destruct (new_displacements_Ok _ _ _ Hout) as (m & Hm & _ & Hpairs).
  rewrite for_app in Hm. apply bind_Ok in Hm as (m1 & Hm1 & Hm2).
  destruct (new_displacements_total _ _ _ Hm1) as [out1 Hout1].
  exists out1. split; [done|]. intros n d Hin.
  destruct (new_displacements_Ok _ _ _ Hout1) as (m1' & Hm1' & _ & Hpairs1).
  rewrite Hm1 in Hm1'. injection Hm1' as <-.
  apply Hpairs. apply (outer_mono _ _ _ _ _ _ Hm2). by apply Hpairs1.
Qed.
End displacements_more.

Lemma new_displacements_sources_witness :
  300 ∈ ex_orig
  ∧ ∃ i e x j o,
      first_seen [ex_e1; ex_e2] i e x 5
      ∧ table !! x = Some j
      ∧ Expansion.orig e !! Z.to_nat j = Some o
      ∧ getitem ex_orig (o - 1) = Ok 300.
Proof.
  apply (new_displacements_sources ex_orig [ex_e1; ex_e2] ex_out 5 300).
  - run.
  - decided.
Defined.

Lemma new_displacements_returns_witness :
  ∃ out, new_displacements ex_orig [ex_e1; ex_e2] = Ok out.
Proof.
  apply (new_displacements_returns ex_orig [ex_e1; ex_e2]).
  repeat constructor; simpl; lia.
Defined.

Lemma new_displacements_needs_witness :
  (1 < 15)%nat
  ∧ ∃ j o, table !! 1%nat = Some j
           ∧ (Z.to_nat j < length (Expansion.orig ex_e2))%nat
           ∧ Expansion.orig ex_e2 !! Z.to_nat j = Some o
           ∧ 1 - Z.of_nat (length ex_orig) ≤ o ≤ Z.of_nat (length ex_orig).
Proof.
  apply (new_displacements_needs ex_orig [ex_e1; ex_e2] ex_out 1 ex_e2 1 5).
  - run.
  - decided.
Defined.

Lemma too_many_new_nodes_witness :
  new_displacements ex_orig ([ex_e1] ++ wide_e :: [ex_e2])
  = Raise (KeyError 15).
Proof.
  apply (too_many_new_nodes ex_orig [ex_e1] wide_e [ex_e2] 35).
  - repeat constructor; simpl; lia.
  - simpl. lia.
  - repeat constructor; simpl; lia.
  - decided.
Defined.

Lemma new_displacements_raises_witness :
  KeyError 15 = IndexError ∨ ∃ k, KeyError 15 = KeyError k ∧ 15 ≤ k.
Proof.
  apply (new_displacements_raises ex_orig [wide_e]).
  run.
Defined.

Lemma seen_record_ignored_witness :
  new_displacements ex_orig ([ex_e1; ex_e2] ++ [known_e]) = Ok ex_out.
Proof.
  apply (seen_record_ignored ex_orig [ex_e1; ex_e2] ex_out known_e).
  - run.
  - intros n Hn. apply elem_of_cons in Hn as [->|Hn]; [decided|].
    apply elem_of_cons in Hn as [->|Hn]; [decided|].
    by apply elem_of_nil in Hn.
Defined.

Lemma prefix_stable_witness :
  ∃ out1, new_displacements ex_orig [ex_e1] = Ok out1
          ∧ ∀ n d, (n, d) ∈ out1 → (n, d) ∈ ex_out.
Proof.
  apply (prefix_stable ex_orig [ex_e1] [ex_e2] ex_out).
  run.
Defined.

(** ** More on splice *)

Lemma concat_readlines (s : str) : concat (readlines s) = s.
Proof.
  induction s as [|c s IH]; [done|]. simpl.
  destruct (c =? newline)%N; [simpl; by rewrite IH|].
  destruct (readlines s) as [|ln lns]; simpl in *; by rewrite <- IH.
Qed.

Lemma lstrip_suffix (s : str) : ∃ pre, s = pre ++ lstrip s.
Proof.
  induction s as [|c s [pre IH]]; [by exists []|]. simpl.
  destruct (is_space c); [|by exists []].
  exists (c :: pre). simpl. by rewrite <- IH.
Qed.

Lemma strip_infix (s : str) : ∃ pre post, s = pre ++ strip s ++ post.
Proof.
  unfold strip. destruct (lstrip_suffix s) as [pre Hpre].
  destruct (lstrip_suffix (reverse (lstrip s))) as [post Hpost].
  exists pre, (reverse post). rewrite <- reverse_app, <- Hpost.
  by rewrite reverse_involutive.
Qed.

(** A record, stripped, does not start with "-3". *)
Lemma record_not_anchor node dx dy dz :
  startswith (strip (record node dx dy dz)) (lit "-3") = false.
Proof.
  unfold strip, record.
  set (rest := rjust 10 (str_of_int node) ++ format_E dx ++ format_E dy
               ++ format_E dz ++ [newline]).
  assert (lstrip (lit " -1" ++ rest) = 45%N :: 49%N :: rest) as ->
    by reflexivity.
  destruct (lstrip_suffix (reverse (45%N :: 49%N :: rest))) as [post Hpost].
  apply (f_equal reverse) in Hpost.
  rewrite reverse_involutive, reverse_app in Hpost.
  destruct (reverse (lstrip (reverse (45%N :: 49%N :: rest))))
    as [|c1 [|c2 t]]; [done| |].
  - simpl in Hpost. injection Hpost as <- _. done.
  - simpl in Hpost. injection Hpost as <- <- _. done.
Qed.

Lemma splice_append_bad new acc :
  Exists (fun nd : Z * list spec_float => length nd.2 ≠ 3%nat) new →
  for_ splice_append acc new = Raise UnpackError.
Proof.
  intros Hbad. revert acc.
  induction Hbad as [[node d] new Hd|[node d] new _ IH]; intros acc;
    cbn [for_].
  - by destruct d as [|dx [|dy [|dz [|? ?]]]].
  - destruct d as [|dx [|dy [|dz [|? ?]]]]; try done. simpl. apply IH.
Qed.

Lemma records_terminated new recs :
  Forall2 is_record new recs → Forall terminated recs.
Proof.
  induction 1 as [|nd rec ? ? (dx & dy & dz & _ & ->) _ IH]; constructor;
    [apply record_terminated | done].
Qed.

Lemma spliced_lines (lines recs : list str) (idx : nat) :
  text_lines lines → (idx < length lines)%nat → Forall terminated recs →
  text_lines (take idx lines ++ recs ++ drop idx lines).
Proof.
  intros Hlines Hidx Hrecs.
  rewrite <- (take_drop idx lines) in Hlines at 1.
  apply text_lines_split in Hlines as [Hbefore Hafter].
  2: { intros Hnil. apply (f_equal length) in Hnil.
       rewrite length_drop in Hnil. simpl in Hnil. lia. }
  rewrite app_assoc. apply text_lines_app; [|done].
  apply Forall_app. by split.
Qed.

(** With the anchor line in place, [splice] is the loop over the pairs
    followed by the writing of the file. *)
Lemma splice_run base new w text (i : nat) ln :
  files w !! (base ++ lit ".frd") = Some text →
  first_line (contains (lit "DISP")) (readlines text) i →
  readlines text !! (i + 5)%nat = Some ln →
  startswith (strip ln) (lit "-3") = true →
  splice base new w
  = match for_ splice_append [] new with
    | Ok recs =>
        (Ok (),
         World (<[base ++ lit "-post.frd" :=
                    concat (take (i + 5) (readlines text) ++ recs
                            ++ drop (i + 5) (readlines text))]> (files w))
               (events w ++ [OpenRead (base ++ lit ".frd");
                             OpenWrite (base ++ lit "-post.frd")]))
    | Raise e =>
        (Raise e, World (files w) (events w ++ [OpenRead (base ++ lit ".frd")]))
    end.
Proof.
  intros Hfile Hdisp Hln Hcheck.
  pose proof (lookup_lt_Some _ _ _ Hln) as Hlen.
  unfold splice, mbind, io_bind, open_readlines. rewrite Hfile.
  unfold lift. rewrite (first_line_getitem _ _ _ Hdisp).
  assert (getitem (readlines text) (Z.of_nat i + 5) = Ok ln) as ->.
  { apply getitem_nonneg; [lia|].
    by replace (Z.to_nat (Z.of_nat i + 5)) with (i + 5)%nat by lia. }
  rewrite Hcheck. simpl.
  destruct (for_ splice_append [] new) as [recs|e]; [|done].
  rewrite slice_to_inside, slice_from_inside by lia.
  replace (Z.to_nat (Z.of_nat i + 5)) with (i + 5)%nat by lia.
  unfold open_writelines. simpl. by rewrite <- app_assoc.
Qed.

(** With a line at the anchor that does not pass the check, [splice] stops
    at the check. *)
Lemma splice_wrong_offset_run base new w text (i : nat) ln :
  files w !! (base ++ lit ".frd") = Some text →
  first_line (contains (lit "DISP")) (readlines text) i →
  readlines text !! (i + 5)%nat = Some ln →
  startswith (strip ln) (lit "-3") = false →
  splice base new w =
    (Raise (ValueError (lit "wrong offset: " ++ str_of_int (Z.of_nat i + 5))),
     World (files w) (events w ++ [OpenRead (base ++ lit ".frd")])).
Proof.
  intros Hfile Hdisp Hln Hcheck.
  unfold splice, mbind, io_bind, open_readlines. rewrite Hfile.
  unfold lift. rewrite (first_line_getitem _ _ _ Hdisp).
  assert (getitem (readlines text) (Z.of_nat i + 5) = Ok ln) as ->.
  { apply getitem_nonneg; [lia|].
    by replace (Z.to_nat (Z.of_nat i + 5)) with (i + 5)%nat by lia. }
  by rewrite Hcheck.
Qed.


(** X16. Without a line that holds "DISP", or with fewer than six lines
    from the first such line to the end of the file, [splice] raises
    IndexError. *)
Theorem splice_index_error base new w text :
  files w !! (base ++ lit ".frd") = Some text →
  Forall (fun ln => contains (lit "DISP") ln = false) (readlines text)
  ∨ (∃ i : nat, first_line (contains (lit "DISP")) (readlines text) i
                ∧ (length (readlines text) ≤ i + 5)%nat) →
  splice base new w
  = (Raise IndexError,
     World (files w) (events w ++ [OpenRead (base ++ lit ".frd")])).
Proof.
  intros Hfile Hcase.
  unfold splice, mbind, io_bind, open_readlines. rewrite Hfile.
  unfold lift. destruct Hcase as [Hnone|(i & Hdisp & Hshort)].
  - by rewrite (no_line_getitem _ _ Hnone).
  - rewrite (first_line_getitem _ _ _ Hdisp).
    assert (getitem (readlines text) (Z.of_nat i + 5) = Raise IndexError)
      as -> by (apply getitem_Raise; split; [done | lia]).
    done.
Qed.

(** X17. When the anchor line is in place and some pair does not hold
    three components, [splice] raises the ValueError of unpacking before
    it opens the output file: nothing is written, not even the records of
    the pairs before. *)
Theorem splice_unpack base new w text (i : nat) ln :
  files w !! (base ++ lit ".frd") = Some text →
  first_line (contains (lit "DISP")) (readlines text) i →
  readlines text !! (i + 5)%nat = Some ln →
  startswith (strip ln) (lit "-3") = true →
  Exists (fun nd : Z * list spec_float => length nd.2 ≠ 3%nat) new →
  splice base new w
  = (Raise UnpackError,
     World (files w) (events w ++ [OpenRead (base ++ lit ".frd")])).
Proof.
  intros Hfile Hdisp Hln Hcheck Hbad.
  rewrite (splice_run _ _ _ _ _ _ Hfile Hdisp Hln Hcheck).
  by rewrite (splice_append_bad _ _ Hbad).
Qed.

(** X18. Without any pair, [splice] writes to <base>-post.frd the text of
    <base>.frd, character for character. *)
Theorem splice_copy base w text (i : nat) ln :
  files w !! (base ++ lit ".frd") = Some text →
  first_line (contains (lit "DISP")) (readlines text) i →
  readlines text !! (i + 5)%nat = Some ln →
  startswith (strip ln) (lit "-3") = true →
  splice base [] w
  = (Ok (),
     World (<[base ++ lit "-post.frd" := text]> (files w))
           (events w ++ [OpenRead (base ++ lit ".frd");
                         OpenWrite (base ++ lit "-post.frd")])).
Proof.
  intros Hfile Hdisp Hln Hcheck.
  rewrite (splice_run _ _ _ _ _ _ Hfile Hdisp Hln Hcheck). simpl.
  by rewrite take_drop, concat_readlines.
Qed.

(** X19. The check of the anchor line keeps [splice] from inserting
    twice: run on the file it wrote, with at least one record in it, it
    finds a record where the "-3" line was, raises the ValueError of the
    wrong offset and writes nothing. *)
Theorem splice_not_repeatable base new new' w text (i : nat) ln :
  files w !! (base ++ lit ".frd") = Some text →
  first_line (contains (lit "DISP")) (readlines text) i →
  readlines text !! (i + 5)%nat = Some ln →
  startswith (strip ln) (lit "-3") = true →
  Forall (fun nd : Z * list spec_float => length nd.2 = 3%nat) new →
  new ≠ [] →
  ∃ w1,
    splice base new w = (Ok (), w1)
    ∧ splice (base ++ lit "-post") new' w1
      = (Raise (ValueError (lit "wrong offset: "
                            ++ str_of_int (Z.of_nat i + 5))),
         World (files w1)
               (events w1 ++ [OpenRead (base ++ lit "-post.frd")])).
Proof.
  intros Hfile Hdisp Hln Hcheck Hnew Hne.
  destruct (splice_append_total new [] Hnew) as [out Hout].
  destruct (splice_append_Ok _ _ _ Hout) as (recs & -> & Hrecs).
  simpl in Hout. pose proof (lookup_lt_Some _ _ _ Hln) as Hlen.
  eexists. split.
  { rewrite (splice_run _ _ _ _ _ _ Hfile Hdisp Hln Hcheck), Hout. done. }
  assert ((base ++ lit "-post") ++ lit ".frd" = base ++ lit "-post.frd")
    as Hpath by by rewrite <- app_assoc.
  set (lines' := take (i + 5) (readlines text) ++ recs
                 ++ drop (i + 5) (readlines text)).
  assert (readlines (concat lines') = lines') as Hback.
  { apply readlines_concat, spliced_lines; [apply text_lines_readlines|lia|].
    by apply (records_terminated new). }
  destruct recs as [|rec recs].
  { apply Forall2_length in Hrecs. by destruct new. }
  assert (∃ nd, is_record nd rec) as (nd & dx & dy & dz & _ & ->).
  { inversion Hrecs; subst. eauto. }
  rewrite <- Hpath.
  apply (splice_wrong_offset_run (base ++ lit "-post") new' _ (concat lines')
           i (record nd.1 dx dy dz)).
  - simpl. rewrite Hpath. apply lookup_insert_eq.
  - rewrite Hback. destruct Hdisp as [Hi Hbefore]. split.
    + unfold lines'. rewrite lookup_app_l by (rewrite length_take; lia).
      rewrite lookup_take_lt by lia. done.
    + unfold lines'. rewrite take_app_le by (rewrite length_take; lia).
      rewrite take_take. by replace (i `min` (i + 5))%nat with i by lia.
  - rewrite Hback. unfold lines'.
    rewrite lookup_app_r by (rewrite length_take; lia).
    rewrite length_take.
    by replace (i + 5 - (i + 5) `min` length (readlines text))%nat
      with 0%nat by lia.
  - apply record_not_anchor.
Qed.


Lemma splice_index_error_witness :
  splice (lit "job") job_new (one_file (lit "job.frd") no_disp_frd)
  = (Raise IndexError,
     World {[ lit "job.frd" := no_disp_frd ]} [OpenRead (lit "job.frd")])
  ∧ splice (lit "job") job_new (one_file (lit "job.frd") cut_frd)
    = (Raise IndexError,
       World {[ lit "job.frd" := cut_frd ]} [OpenRead (lit "job.frd")]).
Proof.
  split.
  - apply (splice_index_error (lit "job") job_new
             (one_file (lit "job.frd") no_disp_frd) no_disp_frd).
    + run.
    + left. decided.
  - apply (splice_index_error (lit "job") job_new
             (one_file (lit "job.frd") cut_frd) cut_frd).
    + run.
    + right. exists 1%nat. split; [decided | vm_compute; lia].
Defined.

Lemma splice_unpack_witness :
  splice (lit "job") ragged_new (job_world job_frd)
  = (Raise UnpackError, World (job_files job_frd) [OpenRead (lit "job.frd")]).
Proof.
  apply (splice_unpack (lit "job") ragged_new (job_world job_frd) job_frd 2
           (lit " -3" ++ [newline])).
  - run.
  - decided.
  - run.
  - run.
  - apply Exists_cons_tl, Exists_cons_hd. simpl. lia.
Defined.

Lemma splice_copy_witness :
  splice (lit "job") [] (job_world job_frd)
  = (Ok (),
     World (<[lit "job-post.frd" := job_frd]> (job_files job_frd))
           [OpenRead (lit "job.frd"); OpenWrite (lit "job-post.frd")]).
Proof.
  apply (splice_copy (lit "job") (job_world job_frd) job_frd 2
           (lit " -3" ++ [newline])).
  - run.
  - decided.
  - run.
  - run.
Defined.

Lemma splice_not_repeatable_witness :
  ∃ w1,
    splice (lit "job") job_new (job_world job_frd) = (Ok (), w1)
    ∧ splice (lit "job-post") job_new w1
      = (Raise (ValueError (lit "wrong offset: 7")),
         World (files w1) (events w1 ++ [OpenRead (lit "job-post.frd")])).
Proof.
  apply (splice_not_repeatable (lit "job") job_new job_new
           (job_world job_frd) job_frd 2 (lit " -3" ++ [newline])).
  - run.
  - decided.
  - run.
  - run.
  - repeat constructor.
  - done.
Defined.

(** ** The whole run *)

Lemma getitem_first_line {A : Type} (p : A → bool) (l : list A) (k : Z) :
  getitem (indices p l) 0 = Ok k → ∃ i : nat, k = Z.of_nat i ∧ first_line p l i.
Proof.
  intros Hk. apply getitem_nonneg in Hk; [|done].
  pose proof (indices_sorted p l) as Hsorted.
  assert (∀ j, j ∈ indices p l → k ≤ j) as Hleast.
  { destruct (indices p l) as [|k' rest]; [done|]. injection Hk as ->.
    apply StronglySorted_inv in Hsorted as [_ Hlt].
    rewrite Forall_forall in Hlt. intros j Hj.
    apply elem_of_cons in Hj as [->|Hj]; [lia|]. specialize (Hlt j Hj). lia. }
  apply list_elem_of_lookup_2, indices_elem_of in Hk as (Hk0 & a & Ha & Hp).
  exists (Z.to_nat k). split; [lia|]. unfold first_line. rewrite Ha.
  split; [done|]. apply Forall_forall. intros b Hb.
  apply list_elem_of_lookup in Hb as [j Hj].
  apply lookup_take_Some in Hj as [Hj Hlt].
  destruct (p b) eqn:Hpb; [|done]. exfalso.
  assert (k ≤ Z.of_nat j); [|lia].
  apply Hleast, indices_elem_of. split; [lia|]. exists b.
  by rewrite Nat2Z.id.
Qed.


Lemma splice_Ok_inv base new w w' :
  splice base new w = (Ok (), w') →
  ∃ text (i : nat) ln recs,
    files w !! (base ++ lit ".frd") = Some text
    ∧ first_line (contains (lit "DISP")) (readlines text) i
    ∧ readlines text !! (i + 5)%nat = Some ln
    ∧ startswith (strip ln) (lit "-3") = true
    ∧ Forall2 is_record new recs
    ∧ w' = World (<[base ++ lit "-post.frd" :=
                      concat (take (i + 5) (readlines text) ++ recs
                              ++ drop (i + 5) (readlines text))]> (files w))
                 (events w ++ [OpenRead (base ++ lit ".frd");
                               OpenWrite (base ++ lit "-post.frd")]).
Proof.
  intros Hrun. pose proof Hrun as Hrun'. revert Hrun'.
  unfold splice, mbind, io_bind, open_readlines, lift, raise, lift.
  destruct (files w !! (base ++ lit ".frd")) as [text|] eqn:Hfile; [|done].
  destruct (getitem (indices _ _) 0) as [k|e] eqn:Hk; [|done].
  apply getitem_first_line in Hk as (i & -> & Hdisp).
  destruct (getitem (readlines text) (Z.of_nat i + 5)) as [ln|e] eqn:Hln;
    [|done].
  apply getitem_nonneg in Hln; [|lia].
  replace (Z.to_nat (Z.of_nat i + 5)) with (i + 5)%nat in Hln by lia.
  destruct (startswith (strip ln) (lit "-3")) eqn:Hcheck; [|done].
  intros _. rewrite (splice_run _ _ _ _ _ _ Hfile Hdisp Hln Hcheck) in Hrun.
  destruct (for_ splice_append [] new) as [recs|e] eqn:Hrecs; [|done].
  injection Hrun as <-.
  apply splice_append_Ok in Hrecs as (recs' & -> & Hrecs).
  by exists text, i, ln, recs'.
Qed.

(** X20. [splice] returns only if the .frd file exists, holds a "DISP"
    line with a line five lines below it that, stripped, starts with "-3",
    and every pair holds three components; then the only file changed is
    <base>-post.frd, which holds the lines of the .frd file with one
    record per pair before the anchor line. *)
Theorem splice_returns base new w w' :
  splice base new w = (Ok (), w') →
  ∃ text (i : nat) ln recs,
    files w !! (base ++ lit ".frd") = Some text
    ∧ first_line (contains (lit "DISP")) (readlines text) i
    ∧ readlines text !! (i + 5)%nat = Some ln
    ∧ startswith (strip ln) (lit "-3") = true
    ∧ Forall (fun nd : Z * list spec_float => length nd.2 = 3%nat) new
    ∧ Forall2 is_record new recs
    ∧ files w' !! (base ++ lit "-post.frd")
      = Some (concat (take (i + 5) (readlines text) ++ recs
                      ++ drop (i + 5) (readlines text)))
    ∧ ∀ path, path ≠ base ++ lit "-post.frd" →
              files w' !! path = files w !! path.
Proof.
  intros Hrun.
  destruct (splice_Ok_inv _ _ _ _ Hrun)
    as (text & i & ln & recs & Hfile & Hdisp & Hln & Hcheck & Hrecs & ->).
  exists text, i, ln, recs. repeat (split; [done|]).
  split; [|split; [|split]]; simpl.
  - eapply Forall2_Forall_l; [exact Hrecs|]. apply Forall_forall.
    intros nd _ rec (dx & dy & dz & -> & _). done.
  - done.
  - apply lookup_insert_eq.
  - intros path Hpath. by rewrite lookup_insert_ne.
Qed.

Section run.
Variable py_float : str → option spec_float.
Variable py_int : str → option Z.

Lemma read_displacements_world base w :
  (read_displacements py_float base w).2
  = World (files w) (events w ++ [OpenRead (base ++ lit ".dat")]).
Proof.
  unfold read_displacements, mbind, io_bind, open_readlines.
  by destruct (files w !! (base ++ lit ".dat")).
Qed.

Lemma read_expansion_world base w :
  (read_expansion py_int base w).2
  = World (files w) (events w ++ [OpenRead (base ++ lit ".12d")]).
Proof.
  unfold read_expansion, mbind, io_bind, open_readlines.
  by destruct (files w !! (base ++ lit ".12d")).
Qed.

Lemma read_expansion_files base w1 w2 :
  files w1 = files w2 →
  (read_expansion py_int base w1).1 = (read_expansion py_int base w2).1.
Proof.
  intros Hfiles. unfold read_expansion, mbind, io_bind, open_readlines.
  rewrite Hfiles. by destruct (files w2 !! (base ++ lit ".12d")).
Qed.



(** The run of the stages, stage by stage. *)
Lemma pipeline_cases base w :
  pipeline py_float py_int base w
  = match (read_displacements py_float base w).1 with
    | Raise e =>
        (Raise e, World (files w) (events w ++ [OpenRead (base ++ lit ".dat")]))
    | Ok orig_disp =>
        match (read_expansion py_int base w).1 with
        | Raise e =>
            (Raise e,
             World (files w)
                   (events w ++ [OpenRead (base ++ lit ".dat");
                                 OpenRead (base ++ lit ".12d")]))
        | Ok expansion =>
            match new_displacements orig_disp expansion with
            | Raise e =>
                (Raise e,
                 World (files w)
                       (events w ++ [OpenRead (base ++ lit ".dat");
                                     OpenRead (base ++ lit ".12d")]))
            | Ok new =>
                splice base new
                  (World (files w)
                         (events w ++ [OpenRead (base ++ lit ".dat");
                                       OpenRead (base ++ lit ".12d")]))
            end
        end
    end.
Proof.
  unfold pipeline, mbind at 1, io_bind at 1.
  pose proof (read_displacements_world base w) as Hw1.
  destruct (read_displacements py_float base w) as [[orig_disp|e] w1];
    simpl in *; subst w1; [|done].
  unfold mbind at 1, io_bind at 1.
  pose proof (read_expansion_world base
                (World (files w) (events w ++ [OpenRead (base ++ lit ".dat")])))
    as Hw2.
  pose proof (read_expansion_files base
                (World (files w) (events w ++ [OpenRead (base ++ lit ".dat")]))
                w eq_refl) as Hres.
  destruct (read_expansion py_int base (World _ _)) as [r2 w2].
  simpl in *. subst w2. rewrite <- app_assoc in *. simpl in *.
  rewrite <- Hres. destruct r2 as [expansion|e]; [|done].
  unfold mbind, io_bind, lift.
  by destruct (new_displacements orig_disp expansion).
Qed.

Lemma run_cases sys_argv w :
  run py_float py_int sys_argv w
  = match sys_argv !! 1%nat with
    | Some base => pipeline py_float py_int base w
    | None => (Raise (SystemExit 1),
               World (files w) (events w ++ [Print (doc ++ [newline])]))
    end.
Proof.
  destruct (sys_argv !! 1%nat) as [base|] eqn:Hbase.
  - unfold run, main, pipeline, mbind, io_bind.
    pose proof (lookup_lt_Some _ _ _ Hbase) as Hlen.
    destruct (Z.ltb_spec (Z.of_nat (length sys_argv)) 2); [lia|].
    assert (getitem sys_argv 1 = Ok base) as Hget
      by by apply getitem_nonneg.
    unfold mret, io_ret, lift. rewrite Hget.
    destruct (read_displacements _ _ _) as [[orig_disp|?] w1]; [|done].
    destruct (read_expansion _ _ _) as [[expansion|?] w2]; [|done].
    by destruct (new_displacements _ _) as [new|?].
  - apply lookup_ge_None in Hbase. unfold run, main, mbind, io_bind.
    destruct (Z.ltb_spec (Z.of_nat (length sys_argv)) 2); [|lia].
    done.
Qed.


(** X22. A run that returns has opened <base>.dat, <base>.12d and
    <base>.frd for reading, in this order, and then <base>-post.frd for
    writing; it has printed nothing and has left every other file as it
    was. *)
Theorem run_success_effects sys_argv w w' :
  run py_float py_int sys_argv w = (Ok (), w') →
  ∃ base,
    sys_argv !! 1%nat = Some base
    ∧ events w' = events w ++ [OpenRead (base ++ lit ".dat");
                               OpenRead (base ++ lit ".12d");
                               OpenRead (base ++ lit ".frd");
                               OpenWrite (base ++ lit "-post.frd")]
    ∧ ∀ path, path ≠ base ++ lit "-post.frd" →
              files w' !! path = files w !! path.
Proof.
  rewrite run_cases. destruct (sys_argv !! 1%nat) as [base|]; [|done].
  rewrite pipeline_cases.
  destruct (read_displacements py_float base w).1 as [orig_disp|e]; [|done].
  destruct (read_expansion py_int base w).1 as [expansion|e]; [|done].
  destruct (new_displacements orig_disp expansion) as [new|e]; [|done].
  intros Hsplice. exists base. split; [done|].
  apply splice_Ok_inv in Hsplice
    as (text & i & ln & recs & _ & _ & _ & _ & _ & ->). simpl.
  split; [by rewrite <- app_assoc|].
  intros path Hpath. by rewrite lookup_insert_ne.
Qed.

(** X23. In a run that returns, the stages compose as follows: the file
    written holds the lines of <base>.frd and, before the anchor line, one
    record for each pair that [new_displacements] makes of the results of
    the two readers. *)
Theorem run_output sys_argv w w' :
  run py_float py_int sys_argv w = (Ok (), w') →
  ∃ base orig_disp expansion new text (i : nat) recs,
    sys_argv !! 1%nat = Some base
    ∧ (read_displacements py_float base w).1 = Ok orig_disp
    ∧ (read_expansion py_int base w).1 = Ok expansion
    ∧ new_displacements orig_disp expansion = Ok new
    ∧ files w !! (base ++ lit ".frd") = Some text
    ∧ first_line (contains (lit "DISP")) (readlines text) i
    ∧ Forall2 is_record new recs
    ∧ files w' !! (base ++ lit "-post.frd")
      = Some (concat (take (i + 5) (readlines text) ++ recs
                      ++ drop (i + 5) (readlines text))).
Proof.
  rewrite run_cases. destruct (sys_argv !! 1%nat) as [base|]; [|done].
  rewrite pipeline_cases.
  destruct (read_displacements py_float base w).1 as [orig_disp|e] eqn:H1;
    [|done].
  destruct (read_expansion py_int base w).1 as [expansion|e] eqn:H2; [|done].
  destruct (new_displacements orig_disp expansion) as [new|e] eqn:H3; [|done].
  intros Hsplice.
  apply splice_Ok_inv in Hsplice
    as (text & i & ln & recs & Hfile & Hdisp & _ & _ & Hrecs & ->).
  exists base, orig_disp, expansion, new, text, i, recs.
  repeat (split; [done|]). simpl. apply lookup_insert_eq.
Qed.

End run.

Lemma splice_returns_witness :
  ∃ text (i : nat) ln recs,
    files (job_world job_frd) !! (lit "job" ++ lit ".frd") = Some text
    ∧ first_line (contains (lit "DISP")) (readlines text) i
    ∧ readlines text !! (i + 5)%nat = Some ln
    ∧ startswith (strip ln) (lit "-3") = true
    ∧ Forall (fun nd : Z * list spec_float => length nd.2 = 3%nat) job_new
    ∧ Forall2 is_record job_new recs
    ∧ files (splice (lit "job") job_new (job_world job_frd)).2
      !! (lit "job" ++ lit "-post.frd")
      = Some (concat (take (i + 5) (readlines text) ++ recs
                      ++ drop (i + 5) (readlines text)))
    ∧ ∀ path, path ≠ lit "job" ++ lit "-post.frd" →
              files (splice (lit "job") job_new (job_world job_frd)).2 !! path
              = files (job_world job_frd) !! path.
Proof.
  apply (splice_returns (lit "job") job_new (job_world job_frd)).
  destruct (splice (lit "job") job_new (job_world job_frd)) as [r w'] eqn:H.
  assert (r = Ok ()) as -> by (apply (f_equal fst) in H; revert H; by vm_compute).
  done.
Defined.


Lemma run_success_effects_witness :
  ∃ w' base,
    run float_literal int_literal [lit "post.py"; lit "job"]
      (job_world job_frd) = (Ok (), w')
    ∧ [lit "post.py"; lit "job"] !! 1%nat = Some base
    ∧ events w' = [OpenRead (base ++ lit ".dat");
                   OpenRead (base ++ lit ".12d");
                   OpenRead (base ++ lit ".frd");
                   OpenWrite (base ++ lit "-post.frd")].
Proof.
  destruct (run float_literal int_literal [lit "post.py"; lit "job"]
              (job_world job_frd)) as [r w'] eqn:Hrun.
  assert (r = Ok ()) as ->
    by (apply (f_equal fst) in Hrun; revert Hrun; by vm_compute).
  destruct (run_success_effects float_literal int_literal
              [lit "post.py"; lit "job"] (job_world job_frd) w' Hrun)
    as (base & Hbase & Hevents & _).
  by exists w', base.
Defined.

Lemma run_output_witness :
  ∃ w' orig_disp expansion new,
    run float_literal int_literal [lit "post.py"; lit "job"]
      (job_world job_frd) = (Ok (), w')
    ∧ (read_displacements float_literal (lit "job") (job_world job_frd)).1
      = Ok orig_disp
    ∧ (read_expansion int_literal (lit "job") (job_world job_frd)).1
      = Ok expansion
    ∧ new_displacements orig_disp expansion = Ok new
    ∧ length new = 27%nat.
Proof.
  destruct (run float_literal int_literal [lit "post.py"; lit "job"]
              (job_world job_frd)) as [r w'] eqn:Hrun.
  assert (r = Ok ()) as ->
    by (apply (f_equal fst) in Hrun; revert Hrun; by vm_compute).
  destruct (run_output float_literal int_literal
              [lit "post.py"; lit "job"] (job_world job_frd) w' Hrun)
    as (base & orig_disp & expansion & new & text & i & recs
        & [= <-] & H1 & H2 & H3 & _).
  exists w', orig_disp, expansion, new. repeat (split; [done|]).
  revert H1 H2 H3. vm_compute. intros [= <-] [= <-] [= <-]. reflexivity.
Defined.


(** ** Further properties of the stages *)

Section stages_more.
Variable py_float : str → option spec_float.
Variable py_int : str → option Z.

(** X25. The run depends on [sys.argv] only through its second entry:
    the program name and any argument after the base name are ignored. *)
Theorem run_uses_first_argument sys_argv sys_argv' w :
  sys_argv !! 1%nat = sys_argv' !! 1%nat →
  run py_float py_int sys_argv w = run py_float py_int sys_argv' w.
Proof. intros Hsame. by rewrite !run_cases, Hsame. Qed.

End stages_more.

Section ids.
Context {D : Type}.
Implicit Types (orig : list D) (expansion : list Expansion.t).

(** X26. The ids of the result do not depend on the order of the records:
    two runs that return on the same records, in any order, give the same
    ids in the same order. Only the displacements may differ. *)
Theorem ids_order_independent orig expansion expansion' out out' :
  expansion ≡ₚ expansion' →
  new_displacements orig expansion = Ok out →
  new_displacements orig expansion' = Ok out' →
  out.*1 = out'.*1.
Proof.
  intros Hperm Hout Hout'.
  destruct (new_displacements_Ok _ _ _ Hout) as (m & Hm & -> & _).
  destruct (new_displacements_Ok _ _ _ Hout') as (m' & Hm' & -> & _).
  apply (StronglySorted_unique_strong Z.lt).
  - intros. lia.
  - apply sorted_keys_lt.
  - apply sorted_keys_lt.
  - apply NoDup_Permutation; [apply sorted_keys_NoDup..|].
    intros n. rewrite !sorted_keys_elem_of.
    rewrite (outer_dom _ _ _ _ _ Hm), (outer_dom _ _ _ _ _ Hm').
    rewrite lookup_empty. split.
    + intros [[? ?]|(e & He & Hn)]; [done|]. right. exists e.
      by rewrite <- Hperm.
    + intros [[? ?]|(e & He & Hn)]; [done|]. right. exists e.
      by rewrite Hperm.
Qed.

Lemma expand_no_displacements e :
  Expansion.new e ≠ [] → expand (@nil D) ∅ e = Raise IndexError.
Proof.
  intros Hnew. rewrite expand_eq.
  destruct (Expansion.new e) as [|n new]; [done|].
  assert (assign (@nil D) (Expansion.orig e) ∅ (0, n) = Raise IndexError)
    as Hstep.
  { unfold assign. rewrite lookup_empty.
    assert (dict_getitem mapping 0 = Ok 0) as -> by reflexivity.
    cbn [mbind result_bind].
    destruct (getitem (Expansion.orig e) 0) as [o|err] eqn:Ho.
    - cbn [mbind result_bind].
      assert (getitem (@nil D) (o - 1) = Raise IndexError) as ->; [|done].
      apply getitem_Raise. split; [done | simpl; lia].
    - by apply getitem_Raise in Ho as [-> _]. }
  unfold enumerate. cbn [imap for_]. change (Z.of_nat 0) with 0.
  by rewrite Hstep.
Qed.

(** X27. Without any original displacement, the function raises
    IndexError as soon as a record holds a new node: every lookup in the
    empty tuple fails, for every id. *)
Theorem no_displacements expansion e :
  e ∈ expansion → Expansion.new e ≠ [] →
  new_displacements (@nil D) expansion = Raise IndexError.
Proof.
  intros He Hnew.
  assert (for_ (expand []) (∅ : gmap Z D) expansion = Raise IndexError)
    as Hloop.
  { induction He as [e rest|e e' rest _ IH]; cbn [for_].
    - by rewrite expand_no_displacements.
    - destruct (Expansion.new e') as [|n new] eqn:Hn.
      + rewrite expand_eq, Hn. cbn [enumerate imap for_ mbind result_bind].
        exact (IH Hnew).
      + rewrite expand_no_displacements; [done|]. by rewrite Hn. }
  unfold new_displacements. by rewrite Hloop.
Qed.
End ids.

Lemma run_uses_first_argument_witness :
  run float_literal int_literal [lit "post.py"; lit "job"; lit "more"]
    (job_world job_frd)
  = run float_literal int_literal [lit "python3"; lit "job"]
      (job_world job_frd).
Proof.
  apply (run_uses_first_argument float_literal int_literal
           [lit "post.py"; lit "job"; lit "more"] [lit "python3"; lit "job"]).
  reflexivity.
Defined.


Lemma ids_order_independent_witness :
  ex_out.*1 = [(4, 300); (5, 300); (7, 300); (8, 200); (9, 300)].*1.
Proof.
  apply (ids_order_independent ex_orig [ex_e1; ex_e2] [ex_e2; ex_e1]).
  - apply Permutation_swap.
  - run.
  - run.
Defined.

Lemma no_displacements_witness :
  new_displacements (@nil Z) [known_e; ex_e1] = Raise IndexError.
Proof.
  apply (no_displacements [known_e; ex_e1] ex_e1).
  - decided.
  - done.
Defined.
